(** * notify-slack-app: the log model, the deduplicator, the poll cycle and
      the watcher loop of [src/ru/izebit/notify-slack-app.py]

    The script polls a search backend for error logs, groups them by
    application, drops near-duplicate messages and uploads what is left to a
    chat channel.  This file embeds the methods of the script's classes
    ([Log], [SlackSender], [ElasticSearchLoader], [Watcher]) under their own
    names and proves the properties of the deduplication, of the cursor and
    of the error paths.

    Conventions of the embedding.
    - A Python [str] is a [string]; [None] is the [None] of an [option].
    - A naive [datetime] is a point of a microsecond time line, an integer.
    - Library functions whose result the script cannot influence
      ([str.lower], [strptime], [strftime], the clock, the two HTTP end points
      and the iteration order of a [set]) are the fields of the class [Env];
      every theorem holds for every environment.
    - A [Log] object has an identity: objects live in a heap and lists, sets
      and dictionaries hold references to them.
    - A search hit and its ['_source'] are dictionaries of the reply: a key
      is there or not, and a subscript on a key that is not there raises
      [KeyError].
    - Console output ([print]) is not part of the model. *)

From Stdlib Require Import ZArith Lia.
From stdpp Require Import base option list gmap sets strings.

Local Open Scope Z_scope.

(** ** Python values and results *)

(** A JSON field as the script reads it: [null] or a text. *)
Inductive pyval :=
  | PyNone
  | PyStr (s : string).

(** An instance of a subclass of [Exception]; [str(e)] is [exn_text]. *)
Record exn := Exception { exn_kind : string; exn_text : string }.

(** The result of a call: a value, or a raised exception. *)
Inductive Res (A : Type) :=
  | Ok (a : A)
  | Raise (e : exn).
Arguments Ok {A} a.
Arguments Raise {A} e.

Definition datetime := Z.

(** A reference to a [Log] object: its index in the heap. *)
Definition ref := nat.

(** The [_source] of one search hit, a dictionary: each of its keys is there
    or not.  The outer option of a field is the presence of the key; for
    [message] and [stacktrace] the inner option is a value that may be
    [None]. *)
Record source := Source {
  s_application : option string;
  s_severity : option string;
  s_message : option (option string);
  s_stacktrace : option (option string);
  s_timestamp : option pyval
}.

(** One entry of [hits.hits], a dictionary too: what it holds under
    ['_source'], when it has the key. *)
Record hit := Hit { h_source : option source }.

(** The attachment posted to the web hook by [_send_msg]. *)
Record attachment := Attachment {
  a_title : string;
  a_color : string;
  a_pretext : string;
  a_text : string
}.

(** The [request_params] of a file upload. *)
Record upload := Upload {
  u_channels : string;
  u_token : string;
  u_filetype : string;
  u_title : string;
  u_filename : string;
  u_content : string;
  u_initial_comment : string
}.

(** What the process does to the outside, in order. *)
Inductive event :=
  | EvSearch (gt : datetime) (size : Z)
  | EvPost (url : string) (a : attachment)
  | EvUpload (url : string) (u : upload)
  | EvSleep (seconds : Z).

(** ** The environment *)

Class Env := {
  (** [str.lower] *)
  lower : string -> string;
  (** [datetime.datetime.strptime(dt_str, format)] *)
  strptime : pyval -> string -> Res datetime;
  (** [dt.strftime(format)] *)
  strftime : datetime -> string -> string;
  (** [datetime.datetime.today()], at the n-th reading of the clock *)
  today : nat -> datetime;
  (** the hits of the n-th search, or the error of the request *)
  search_reply : nat -> Res (list hit);
  (** the outcome of the n-th request to the chat service *)
  slack_reply : nat -> Res string;
  (** the order in which a [set] of objects is iterated; it may depend on
      the list the set was built from *)
  set_order : list ref -> gset ref -> list ref;
  (** iterating a set visits each of its elements once *)
  set_order_elements : forall items s, set_order items s ≡ₚ elements s
}.

(** ** Constants of the script *)

Definition DUPLICATE_THRESHOLD : Z := 10.
Definition DELAY_SECONDS : Z := 600.
Definition RECIPIENTS : gmap string string :=
  {["<service-name>" := "@<slack-nickname>"]}.

(** ** The heap, the state of the process and the monad of its effects *)

(** The attributes of an instance of [Log]. *)
Record Log := mkLog {
  application : string;
  severity : string;
  message : option string;
  stacktrace : string;
  date : datetime
}.

Global Instance Log_inhabited : Inhabited Log :=
  populate (mkLog EmptyString EmptyString None EmptyString 0).

(** A dictionary from application names to lists of [Log] objects, in
    insertion order. *)
Definition dict := list (string * list ref).

Record world := World {
  (** every [Log] object created so far *)
  heap : list Log;
  (** [ElasticSearchLoader._last_update_time] of the one loader *)
  _last_update_time : datetime;
  clock_reads : nat;
  searches : nat;
  slack_calls : nat;
  (** the events so far, the latest last *)
  events : list event
}.

(** A computation: from a state to a result and a state, or to nothing when
    the fuel of a [while True] ran out. *)
Definition M (A : Type) : Type := world -> option (Res A * world).

Definition ret {A} (a : A) : M A := fun w => Some (Ok a, w).

Definition bind {A B} (m : M A) (f : A -> M B) : M B := fun w =>
  match m w with
  | Some (Ok a, w') => f a w'
  | Some (Raise e, w') => Some (Raise e, w')
  | None => None
  end.

Definition lift {A} (r : Res A) : M A := fun w => Some (r, w).

(** [try: m except Exception as e: handler(e)] *)
Definition try_except {A} (m : M A) (handler : exn -> M A) : M A := fun w =>
  match m w with
  | Some (Raise e, w') => handler e w'
  | r => r
  end.

Definition out_of_fuel {A} : M A := fun _ => None.

Global Instance M_ret : MRet M := @ret.
Global Instance M_bind : MBind M := fun A B f m => bind m f.

Definition emit (e : event) : M unit := fun w =>
  Some (Ok tt, World (heap w) (_last_update_time w) (clock_reads w) (searches w)
                     (slack_calls w) (events w ++ [e])).

Definition get_heap : M (list Log) := fun w => Some (Ok (heap w), w).

(** The attributes of the object behind a reference.  Every reference of a
    run is the index of an object of the heap; for any other number the
    lookup gives the attributes of an empty record. *)
Definition attributes (r : ref) : M Log := fun w => Some (Ok (heap w !!! r), w).

Definition get_last_update_time : M datetime := fun w =>
  Some (Ok (_last_update_time w), w).

Definition set_last_update_time (d : datetime) : M unit := fun w =>
  Some (Ok tt, World (heap w) d (clock_reads w) (searches w) (slack_calls w) (events w)).

(** [for x in xs: body(x)] *)
Fixpoint for_each {A} (xs : list A) (body : A -> M unit) : M unit :=
  match xs with
  | [] => mret tt
  | x :: xs => body x;; for_each xs body
  end.

(** ** class Log *)

(** The objects [__eq__] can be handed as [other]. *)
Inductive pyobj :=
  (** an instance of [Log] *)
  | ObjLog (r : ref)
  (** the class [Log] itself; its attributes are the class attributes
      [severity], [application], [message], [stacktrace], [date], all [None] *)
  | ObjLogClass
  (** another class, which has none of these attributes *)
  | ObjClass (name : string)
  (** any other value *)
  | ObjValue (v : pyval).

(** [isinstance(o, Log.__class__)]: [Log.__class__] is the metaclass [type],
    whose instances are the classes. *)
Definition isinstance_Log__class__ (o : pyobj) : bool :=
  match o with
  | ObjLogClass | ObjClass _ => true
  | ObjLog _ | ObjValue _ => false
  end.

Definition AttributeError (name : string) : exn :=
  Exception "AttributeError" ("object has no attribute '" +:+ name +:+ "'").

(** [d[key]] of a dictionary raises [KeyError(key)] when [key] is absent;
    [str(e)] is the [repr] of the key. *)
Definition KeyError (key : string) : exn :=
  Exception "KeyError" ("'" +:+ key +:+ "'").

Definition subscript {A} (value : option A) (key : string) : M A :=
  match value with
  | Some v => mret v
  | None => lift (Raise (KeyError key))
  end.

(** [a and b], where [b] is evaluated only when [a] is true. *)
Definition py_and (a b : Res bool) : Res bool :=
  match a with
  | Ok true => b
  | _ => a
  end.

Section LogClass.
Context `{Env}.

(** [other.<attribute>] for the text attributes and for [date]; [None] is the
    value of a class attribute of [Log]. *)
Definition getattr_str (h : list Log) (other : pyobj) (name : string)
    (field : Log -> option string) : Res (option string) :=
  match other with
  | ObjLog r => Ok (field (h !!! r))
  | ObjLogClass => Ok None
  | _ => Raise (AttributeError name)
  end.

Definition getattr_date (h : list Log) (other : pyobj) : Res (option datetime) :=
  match other with
  | ObjLog r => Ok (Some (date (h !!! r)))
  | ObjLogClass => Ok None
  | _ => Raise (AttributeError "date")
  end.

Definition eq_with {A} `{EqDecision A} (x : A) (r : Res A) : Res bool :=
  match r with
  | Ok y => Ok (bool_decide (x = y))
  | Raise e => Raise e
  end.

Definition __eq__ (h : list Log) (self : ref) (other : pyobj) : Res bool :=
  let this := h !!! self in
  if negb (isinstance_Log__class__ other) then Ok false
  else
    py_and (eq_with (Some (application this))
                    (getattr_str h other "application" (fun l => Some (application l))))
   (py_and (eq_with (Some (severity this))
                    (getattr_str h other "severity" (fun l => Some (severity l))))
   (py_and (eq_with (Some (date this)) (getattr_date h other))
   (py_and (Ok (bool_decide (message this = message this)))
           (Ok (bool_decide (stacktrace this = stacktrace this)))))).

Definition read_clock : M datetime := fun w =>
  Some (Ok (today (clock_reads w)),
        World (heap w) (_last_update_time w) (S (clock_reads w)) (searches w)
              (slack_calls w) (events w)).

Definition _parse_timestamp (dt_str : pyval) : M datetime :=
  try_except (lift (strptime dt_str "%Y-%m-%dT%H:%M:%S.%fZ"))
    (fun _ =>
       try_except (lift (strptime dt_str "%Y-%m-%dT%H:%M:%SZ"))
         (fun _ => read_clock)).

(** The object is put at the end of the heap; its reference is returned. *)
Definition new_object (l : Log) : M ref := fun w =>
  Some (Ok (length (heap w)),
        World (heap w ++ [l]) (_last_update_time w) (clock_reads w) (searches w)
              (slack_calls w) (events w)).

(** [Log(application, severity, message, stacktrace, timestamp)] *)
Definition Log__init__ (application severity : string) (message stacktrace : option string)
    (timestamp : pyval) : M ref :=
  d ← _parse_timestamp timestamp;
  new_object (mkLog application severity message
                    (match stacktrace with None => EmptyString | Some s => s end) d).

(** The body of [for index in range(0, min_len)], with the two counters
    [result] and [count] as loop state; [true] is the early [return True]. *)
Fixpoint scan (s1 s2 : string) (threshold : Z) (indices : list nat)
    (result count : Z) : bool :=
  match indices with
  | [] => bool_decide (Z.max result count > threshold)
  | index :: indices =>
      if bool_decide (String.get index s1 = String.get index s2) then
        let count := count + 1 in
        if bool_decide (count >= threshold) then true
        else scan s1 s2 threshold indices result count
      else
        let result := Z.max result count in
        scan s1 s2 threshold indices result 0
  end.

Definition _is_duplicate (s1 s2 : option string) (threshold : Z) : bool :=
  match s1, s2 with
  | Some s1, Some s2 =>
      let s1 := lower s1 in
      let s2 := lower s2 in
      let min_len := Nat.min (String.length s1) (String.length s2) in
      scan s1 s2 threshold (seq 0 min_len) 0 0
  | _, _ => false
  end.

(** [for j in range(i + 1, len(items))], where [x] is [items[i]] and [later]
    is [items[i+1:]].  Membership in [tmp_set] and removal from it go by the
    identity of the object: [__eq__] answers [False] for every instance. *)
Definition inner_loop (h : list Log) (x : ref) (later : list ref) (tmp_set : gset ref)
    : gset ref :=
  foldl (fun tmp_set y =>
           if _is_duplicate (message (h !!! x)) (message (h !!! y)) DUPLICATE_THRESHOLD
              && bool_decide (y ∈ tmp_set)
           then tmp_set ∖ {[y]}
           else tmp_set)
        tmp_set later.

(** [for i in range(0, len(items))] *)
Fixpoint outer_loop (h : list Log) (items : list ref) (tmp_set : gset ref) : gset ref :=
  match items with
  | [] => tmp_set
  | x :: later => outer_loop h later (inner_loop h x later tmp_set)
  end.

(** The new content of the list [items], which the method changes in place. *)
Definition remove_useless_logs (h : list Log) (items : list ref) : list ref :=
  let tmp_set : gset ref := list_to_set items in
  let tmp_set := outer_loop h items tmp_set in
  set_order items tmp_set.

End LogClass.

(** ** class SlackSender *)

Record SlackSender := mkSlackSender {
  _bot_token : string;
  _channel_name : string;
  _channel_web_hook_url : string
}.

Definition is_upload (e : event) : bool :=
  match e with EvUpload _ _ => true | _ => false end.

Definition is_post (e : event) : bool :=
  match e with EvPost _ _ => true | _ => false end.

(** The posts made by [send_error]: their title is ["Error:"]. *)
Definition is_error_post (e : event) : bool :=
  match e with
  | EvPost _ a => bool_decide (a_title a = "Error:")
  | _ => false
  end.

Section SlackSenderClass.
Context `{Env}.

(** [urlopen(request).read().decode()] on a request to the chat service: the
    request is made, then the service answers or the call raises. *)
Definition urlopen_slack (request : event) : M string := fun w =>
  Some (slack_reply (slack_calls w),
        World (heap w) (_last_update_time w) (clock_reads w) (searches w)
              (S (slack_calls w)) (events w ++ [request])).

Definition _send_msg (self : SlackSender) (title text pretext color : string) : M unit :=
  let url := "https://hooks.slack.com/services/" +:+ _channel_web_hook_url self in
  let data := Attachment title color pretext text in
  urlopen_slack (EvPost url data);;
  mret tt.

Definition send_info (self : SlackSender) (text : string) : M unit :=
  _send_msg self "Hi" text ":rocket:" "good".

Definition send_error (self : SlackSender) (text : string) : M unit :=
  _send_msg self "Error:" text "There is something wrong with me :warning:" "danger".

Definition newline : string := String (Ascii.ascii_of_nat 10) EmptyString.

Definition str_of_message (m : option string) : string :=
  match m with
  | None => "None"
  | Some s => s
  end.

(** The body of [for log in logs]. *)
Definition send_log (self : SlackSender) (app_name : string) (log : ref) : M unit :=
  l ← attributes log;
  let url := "https://slack.com/api/files.upload" in
  let recipients := default "anonymous" (RECIPIENTS !! lower app_name) in
  let request_params :=
    Upload (_channel_name self)
           (_bot_token self)
           "java"
           (application l +:+ "-" +:+ severity l)
           (app_name +:+ ".log")
           (str_of_message (message l) +:+ newline +:+ stacktrace l)
           ("application: " +:+ application l +:+ " " +:+ newline +:+
            "members: " +:+ recipients +:+ newline +:+
            "date: " +:+ strftime (date l) "%Y-%m-%d %H:%M") in
  urlopen_slack (EvUpload url request_params);;
  mret tt.

Definition send_data (self : SlackSender) (items : dict) : M unit :=
  if bool_decide (length items = 0%nat) then mret tt
  else
    for_each items (fun '(app_name, logs) =>
      for_each logs (send_log self app_name)).

End SlackSenderClass.

(** ** class ElasticSearchLoader *)

(** [max(a, b)] of Python: the first argument unless the second is greater. *)
Definition py_max (a b : datetime) : datetime :=
  if bool_decide (b > a) then b else a.

(** [d.setdefault(k, v)] on an insertion-ordered dictionary. *)
Fixpoint setdefault (d : dict) (k : string) (v : list ref) : dict :=
  match d with
  | [] => [(k, v)]
  | (k', l) :: d' =>
      if bool_decide (k' = k) then (k', l) :: d'
      else (k', l) :: setdefault d' k v
  end.

(** [d.get(k)] *)
Fixpoint dict_get (d : dict) (k : string) : option (list ref) :=
  match d with
  | [] => None
  | (k', l) :: d' => if bool_decide (k' = k) then Some l else dict_get d' k
  end.

(** [d.get(k).append(x)]: the list stored under [k] grows in place.  Under a
    key that is absent [get] gives [None], whose [append] does not exist. *)
Fixpoint get_append (d : dict) (k : string) (x : ref) : Res dict :=
  match d with
  | [] => Raise (AttributeError "append")
  | (k', l) :: d' =>
      if bool_decide (k' = k) then Ok ((k', l ++ [x]) :: d')
      else match get_append d' k x with
           | Ok d'' => Ok ((k', l) :: d'')
           | Raise e => Raise e
           end
  end.

Section ElasticSearchLoaderClass.
Context `{Env}.

(** [ElasticSearchLoader(server_url)] sets the cursor to the current time. *)
Definition ElasticSearchLoader__init__ : M unit :=
  now ← read_clock;
  set_last_update_time now.

Definition _load_json (limit : Z) : M (list hit) := fun w =>
  Some (search_reply (searches w),
        World (heap w) (_last_update_time w) (clock_reads w) (S (searches w))
              (slack_calls w) (events w ++ [EvSearch (_last_update_time w) limit])).

(** [entry['_source']], [information['application']],
    [information['severity']] and [information['@timestamp']] are subscripts,
    which raise [KeyError] on an absent key, in this order; [message] and
    [stacktrace] are read through [get] with a default. *)
Fixpoint _parse (data : list hit) : M (list ref) :=
  match data with
  | [] => mret []
  | entry :: data =>
      information ← subscript (h_source entry) "_source";
      application ← subscript (s_application information) "application";
      severity ← subscript (s_severity information) "severity";
      let message := default (Some EmptyString) (s_message information) in
      let stacktrace := default (Some EmptyString) (s_stacktrace information) in
      timestamp ← subscript (s_timestamp information) "@timestamp";
      log ← Log__init__ application severity message stacktrace timestamp;
      result ← _parse data;
      mret (log :: result)
  end.

(** The body of [for log in logs], on the local [result] and the cursor. *)
Definition add_log (result : dict) (log : ref) : M dict :=
  l ← attributes log;
  let result := setdefault result (application l) [] in
  result ← lift (get_append result (application l) log);
  cursor ← get_last_update_time;
  set_last_update_time (py_max (date l) cursor);;
  mret result.

Fixpoint add_logs (result : dict) (logs : list ref) : M dict :=
  match logs with
  | [] => mret result
  | log :: logs => result ← add_log result log; add_logs result logs
  end.

(** [while True: ...], at most [fuel] times. *)
Fixpoint load_loop (fuel : nat) (result : dict) : M dict :=
  match fuel with
  | O => out_of_fuel
  | S fuel =>
      data ← _load_json 100;
      if bool_decide (length data = 0%nat) then mret result
      else
        logs ← _parse data;
        result ← add_logs result logs;
        load_loop fuel result
  end.

(** [for log_list in result.values(): Log.remove_useless_logs(log_list)] *)
Definition dedup_values (h : list Log) (result : dict) : dict :=
  map (fun '(k, log_list) => (k, remove_useless_logs h log_list)) result.

Definition load (fuel : nat) : M dict :=
  result ← load_loop fuel [];
  h ← get_heap;
  mret (dedup_values h result).

End ElasticSearchLoaderClass.

(** ** class Watcher *)

Section WatcherClass.
Context `{Env}.

Definition sleep (seconds : Z) : M unit := emit (EvSleep seconds).

(** One turn of [while True] in [watcher]. *)
Definition iteration (_sender : SlackSender) (fuel : nat) : M unit :=
  logs ← try_except (load fuel)
           (fun e =>
              send_error _sender
                ("error happened while loading logs from elastic search:" +:+ exn_text e);;
              mret []);
  try_except (send_data _sender logs)
    (fun e =>
       send_error _sender
         ("error happened while sending notifies about errors: " +:+ exn_text e));;
  sleep DELAY_SECONDS.

Fixpoint iterations (_sender : SlackSender) (fuel : nat) (n : nat) : M unit :=
  match n with
  | O => mret tt
  | S n => iteration _sender fuel;; iterations _sender fuel n
  end.

(** [watcher], up to the end of the [n]-th turn of its loop. *)
Definition watcher (_sender : SlackSender) (fuel : nat) (n : nat) : M unit :=
  send_info _sender "i started to work";;
  iterations _sender fuel n.

End WatcherClass.

(** ** class ElasticSearchLoader: the query for the stop words *)

Definition STOP_WORDS : list string := ["AuthenticationException"; "SocketException"].

(** [for word in words: query += " *" + word + "* "] *)
Definition stop_word_loop (words : list string) (query : string) : string :=
  foldl (fun query word => query +:+ (" *" +:+ word +:+ "* ")) query words.

Definition _get_query_for_stop_word : string :=
  let query := EmptyString in
  stop_word_loop STOP_WORDS query.

(** ** A sample environment

    An environment to run the definitions in: texts are ASCII, timestamps
    have the fixed-width form [YYYY-mm-ddTHH:MM:SS[.f{1,6}]Z] (any other text
    is refused, as [strptime] refuses a text that does not match), the clock
    advances by one second a reading, and a set is iterated in the order of
    stdpp's [elements].  The replies of the two services are parameters. *)

Module Sample.

Definition lower_char (c : Ascii.ascii) : Ascii.ascii :=
  let n := Ascii.nat_of_ascii c in
  if bool_decide (65 <= n <= 90)%nat then Ascii.ascii_of_nat (n + 32) else c.

Fixpoint lower (s : string) : string :=
  match s with
  | EmptyString => EmptyString
  | String c s => String (lower_char c) (lower s)
  end.

Definition digit (c : Ascii.ascii) : option Z :=
  let n := Ascii.nat_of_ascii c in
  if bool_decide (48 <= n <= 57)%nat then Some (Z.of_nat n - 48) else None.

(** Exactly [k] digits at the head of [s]: their value, started from [acc],
    and what follows. *)
Fixpoint digits (k : nat) (acc : Z) (s : string) : option (Z * string) :=
  match k with
  | O => Some (acc, s)
  | S k =>
      match s with
      | String c s =>
          match digit c with
          | Some d => digits k (10 * acc + d) s
          | None => None
          end
      | EmptyString => None
      end
  end.

(** One to [k] digits of a fraction, padded with zeros on the right to [k]
    digits. *)
Fixpoint fraction (k : nat) (acc : Z) (s : string) : Z * string :=
  match k with
  | O => (acc, s)
  | S k =>
      match s with
      | String c s' =>
          match digit c with
          | Some d => fraction k (10 * acc + d) s'
          | None => (acc * 10 ^ Z.of_nat (S k), s)
          end
      | EmptyString => (acc * 10 ^ Z.of_nat (S k), s)
      end
  end.

Definition expect (c : string) (s : string) : option string :=
  match c, s with
  | String c EmptyString, String c' s => if bool_decide (c = c') then Some s else None
  | _, _ => None
  end.

Definition is_leap (y : Z) : bool :=
  bool_decide (y mod 4 = 0) && (negb (bool_decide (y mod 100 = 0)) || bool_decide (y mod 400 = 0)).

Definition days_in_month (y m : Z) : Z :=
  if bool_decide (m = 2) then (if is_leap y then 29 else 28)
  else if bool_decide (m = 4 \/ m = 6 \/ m = 9 \/ m = 11) then 30 else 31.

(** Days from 1970-01-01 to the given date of the proleptic Gregorian
    calendar. *)
Definition days_from_civil (y m d : Z) : Z :=
  let y := if bool_decide (m <= 2) then y - 1 else y in
  let era := y / 400 in
  let yoe := y - era * 400 in
  let doy := (153 * (if bool_decide (m > 2) then m - 3 else m + 9) + 2) / 5 + d - 1 in
  let doe := yoe * 365 + yoe / 4 - yoe / 100 + doy in
  era * 146097 + doe - 719468.

Definition civil_from_days (z : Z) : Z * Z * Z :=
  let z := z + 719468 in
  let era := z / 146097 in
  let doe := z - era * 146097 in
  let yoe := (doe - doe / 1460 + doe / 36524 - doe / 146096) / 365 in
  let doy := doe - (365 * yoe + yoe / 4 - yoe / 100) in
  let mp := (5 * doy + 2) / 153 in
  let d := doy - (153 * mp + 2) / 5 + 1 in
  let m := if bool_decide (mp < 10) then mp + 3 else mp - 9 in
  ((if bool_decide (m <= 2) then yoe + era * 400 + 1 else yoe + era * 400), m, d).

Definition make_datetime (y m d hh mm ss us : Z) : option datetime :=
  if bool_decide (1 <= y <= 9999 /\ 1 <= m <= 12 /\ 1 <= d <= days_in_month y m /\
                  hh <= 23 /\ mm <= 59 /\ ss <= 59)
  then Some ((((days_from_civil y m d * 24 + hh) * 60 + mm) * 60 + ss) * 1000000 + us)
  else None.

(** The part of the two formats up to the seconds. *)
Definition parse_seconds (s : string) : option (Z * Z * Z * Z * Z * Z * string) :=
  '(y, s) ← digits 4 0 s; s ← expect "-" s;
  '(m, s) ← digits 2 0 s; s ← expect "-" s;
  '(d, s) ← digits 2 0 s; s ← expect "T" s;
  '(hh, s) ← digits 2 0 s; s ← expect ":" s;
  '(mm, s) ← digits 2 0 s; s ← expect ":" s;
  '(ss, s) ← digits 2 0 s;
  Some (y, m, d, hh, mm, ss, s).

Definition parse_with_fraction (s : string) : option datetime :=
  '(y, m, d, hh, mm, ss, s) ← parse_seconds s;
  s ← expect "." s;
  '(_, s') ← digits 1 0 s;
  let '(us, s) := fraction 6 0 s in
  s ← expect "Z" s;
  if bool_decide (s = EmptyString) then make_datetime y m d hh mm ss us else None.

Definition parse_whole_seconds (s : string) : option datetime :=
  '(y, m, d, hh, mm, ss, s) ← parse_seconds s;
  s ← expect "Z" s;
  if bool_decide (s = EmptyString) then make_datetime y m d hh mm ss 0 else None.

Definition strptime (dt_str : pyval) (format : string) : Res datetime :=
  match dt_str with
  | PyNone => Raise (Exception "TypeError" "strptime() argument 1 must be str, not None")
  | PyStr s =>
      let parsed :=
        if bool_decide (format = "%Y-%m-%dT%H:%M:%S.%fZ") then parse_with_fraction s
        else if bool_decide (format = "%Y-%m-%dT%H:%M:%SZ") then parse_whole_seconds s
        else None in
      match parsed with
      | Some d => Ok d
      | None => Raise (Exception "ValueError" "time data does not match format")
      end
  end.

Definition digit_char (d : Z) : Ascii.ascii := Ascii.ascii_of_nat (48 + Z.to_nat d).

(** [k] decimal digits of [z], the most significant first. *)
Fixpoint decimal (k : nat) (z : Z) (tail : string) : string :=
  match k with
  | O => tail
  | S k => decimal k (z / 10) (String (digit_char (z mod 10)) tail)
  end.

(** The one format [send_data] prints a date in: minutes precision. *)
Definition strftime (dt : datetime) (format : string) : string :=
  let minutes := dt / 60000000 in
  let '(y, m, d) := civil_from_days (minutes / 1440) in
  let hh := (minutes mod 1440) / 60 in
  let mm := minutes mod 60 in
  decimal 4 y ("-" +:+ decimal 2 m ("-" +:+ decimal 2 d (" " +:+
    decimal 2 hh (":" +:+ decimal 2 mm EmptyString)))).

(** 2023-01-02 03:04:05 and then a second more at every reading. *)
Definition today (n : nat) : datetime := 1672628645000000 + 1000000 * Z.of_nat n.

Definition env (search_reply : nat -> Res (list hit)) (slack_reply : nat -> Res string) : Env :=
  Build_Env lower strptime strftime today search_reply slack_reply
    (fun _ s => elements s) (fun _ s => reflexivity (elements s)).

(** A search backend that answers the given pages and then nothing, and a
    chat service that always answers. *)
Definition pages (ps : list (list hit)) (n : nat) : Res (list hit) :=
  Ok (default [] (ps !! n)).

Definition always_ok (n : nat) : Res string := Ok "ok".

(** A search backend that is down, and a chat service that is down. *)
Definition search_down (n : nat) : Res (list hit) :=
  Raise (Exception "URLError" "connection refused").

Definition slack_down (n : nat) : Res string :=
  Raise (Exception "URLError" "connection refused").

Definition start : world := World [] 0 0 0 0 [].

(** Two near-duplicate errors of one application and an error of another. *)
Definition hit_a1 : hit :=
  Hit (Some (Source (Some "billing") (Some "error")
                    (Some (Some "NPE at line 10 in FooService")) None
                    (Some (PyStr "2023-01-02T03:04:05.123456Z")))).

Definition hit_a2 : hit :=
  Hit (Some (Source (Some "billing") (Some "error")
                    (Some (Some "NPE at line 10 in FooService xyz123"))
                    (Some (Some "at Foo.bar(Foo.java:10)"))
                    (Some (PyStr "2023-01-02T03:04:06Z")))).

Definition hit_b : hit :=
  Hit (Some (Source (Some "search") (Some "error") (Some (Some "timeout")) (Some None)
                    (Some (PyStr "not-a-date")))).

(** Hits that lack a key: ['_source'], ['application'], ['severity'],
    ['@timestamp']. *)
Definition hit_no_source : hit := Hit None.

Definition hit_no_application : hit :=
  Hit (Some (Source None (Some "error") (Some (Some "timeout")) None
                    (Some (PyStr "2023-01-02T03:04:06Z")))).

Definition hit_no_severity : hit :=
  Hit (Some (Source (Some "billing") None (Some (Some "timeout")) None
                    (Some (PyStr "2023-01-02T03:04:06Z")))).

Definition hit_no_timestamp : hit :=
  Hit (Some (Source (Some "billing") (Some "error") (Some (Some "timeout")) None None)).

Definition sender : SlackSender := mkSlackSender "xoxb-token" "#errors" "T000/B000/XXXX".

(** A heap of three objects, the second a near-duplicate of the first, and a
    heap of one object whose message has ten characters. *)
Definition three_logs : list Log :=
  [mkLog "billing" "error" (Some "NPE at line 10 in FooService") EmptyString 1672628645123456;
   mkLog "billing" "error" (Some "NPE at line 10 in FooService xyz123") EmptyString 1672628646000000;
   mkLog "billing" "error" (Some "disk full on /var") EmptyString 1672628647000000].



End Sample.

(** ** The vocabulary of the properties *)

(** The characters of [s1] and [s2] at [index] are the same: what the scan
    tests. *)
Definition same_at (s1 s2 : string) (index : nat) : Prop :=
  String.get index s1 = String.get index s2.

(** [n] equal characters at the same positions of [s1] and [s2], from
    position [start] on, inside both strings. *)
Definition aligned_run (s1 s2 : string) (start n : nat) : Prop :=
  (start + n <= Nat.min (String.length s1) (String.length s2))%nat /\
  forall k, (k < n)%nat -> same_at s1 s2 (start + k).

Definition fractional_format : string := "%Y-%m-%dT%H:%M:%S.%fZ".
Definition whole_seconds_format : string := "%Y-%m-%dT%H:%M:%SZ".

(** Every run of [m] that ends, with a value or an exception, relates the
    state it started in to the state it ends in by [R]. *)
Definition preserves (R : relation world) {A} (m : M A) : Prop :=
  forall w r w', m w = Some (r, w') -> R w w'.

Definition cursor_le (w w' : world) : Prop := _last_update_time w <= _last_update_time w'.

Definition is_search (e : event) : bool :=
  match e with EvSearch _ _ => true | _ => false end.

Definition only_searched (w w' : world) : Prop :=
  slack_calls w' = slack_calls w /\
  exists evs, events w' = events w ++ evs /\ forallb is_search evs = true.

(** Every new event is an upload, and the chat service was called once for
    each; the rest is as it was. *)
Definition only_uploaded (w w' : world) : Prop :=
  heap w' = heap w /\ _last_update_time w' = _last_update_time w /\
  searches w' = searches w /\
  exists evs, events w' = events w ++ evs /\ forallb is_upload evs = true /\
              slack_calls w' = (slack_calls w + length evs)%nat.

(** All but the heap and the clock is as it was. *)
Definition rest_unchanged (w w' : world) : Prop :=
  _last_update_time w' = _last_update_time w /\ searches w' = searches w /\
  slack_calls w' = slack_calls w /\ events w' = events w.

(** The text and the post of the alert for a [load] that raised [e]. *)
Definition load_error_text (e : exn) : string :=
  "error happened while loading logs from elastic search:" +:+ exn_text e.

Definition error_post (self : SlackSender) (text : string) : event :=
  EvPost ("https://hooks.slack.com/services/" +:+ _channel_web_hook_url self)
         (Attachment "Error:" "danger" "There is something wrong with me :warning:" text).

(** The list under a key after more objects came under it: [old] is what
    [get] gave before, [new] the objects that came, in order. *)
Definition grouped (old : option (list ref)) (new : list ref) : option (list ref) :=
  match new with
  | [] => old
  | _ => Some (default [] old ++ new)
  end.

(** The first key that [_parse] reads by subscript and the hit lacks:
    ['_source'], and in it ['application'], ['severity'], ['@timestamp'], in
    the order of the reads. *)
Definition missing_key (entry : hit) : option string :=
  match h_source entry with
  | None => Some "_source"
  | Some information =>
      match s_application information, s_severity information, s_timestamp information with
      | None, _, _ => Some "application"
      | Some _, None, _ => Some "severity"
      | Some _, Some _, None => Some "@timestamp"
      | Some _, Some _, Some _ => None
      end
  end.

(** The hit has all four of these keys. *)
Definition has_keys (entry : hit) : bool :=
  match missing_key entry with
  | None => true
  | Some _ => false
  end.

(** The attributes an object gets from the hit it is built from. *)
Definition built_from (entry : hit) (l : Log) : Prop :=
  exists information,
    h_source entry = Some information /\
    s_application information = Some (application l) /\
    s_severity information = Some (severity l) /\
    message l = default (Some EmptyString) (s_message information) /\
    stacktrace l = match default (Some EmptyString) (s_stacktrace information) with
                   | None => EmptyString
                   | Some s => s
                   end.

Section Vocabulary.
Context `{Env}.

(** [x] makes [y] a near-duplicate. *)
Definition dup (h : list Log) (x y : ref) : bool :=
  _is_duplicate (message (h !!! x)) (message (h !!! y)) DUPLICATE_THRESHOLD.

(** [y] stands in the list after an object that makes it a near-duplicate:
    the pair [(i, j)] with [i < j] at which the loops remove [y]. *)
Fixpoint removed (h : list Log) (items : list ref) (y : ref) : Prop :=
  match items with
  | [] => False
  | x :: later => (y ∈ later /\ dup h x y = true) \/ removed h later y
  end.

(** The page the n-th search is answered with. *)
Definition page_at (n : nat) : list hit :=
  match search_reply n with
  | Ok page => page
  | Raise _ => []
  end.

(** The hits of [n] searches from the [s]-th on. *)
Fixpoint fetched (s n : nat) : list hit :=
  match n with
  | O => []
  | S n => page_at s ++ fetched (S s) n
  end.

End Vocabulary.

(** ** The vocabulary of the further properties *)

(** The text of the alert for a [send_data] that raised [e]. *)
Definition send_error_text (e : exn) : string :=
  "error happened while sending notifies about errors: " +:+ exn_text e.

Definition is_sleep (e : event) : bool :=
  match e with EvSleep _ => true | _ => false end.

(** The post of [send_info], and the posts that have its title. *)
Definition info_post (self : SlackSender) (text : string) : event :=
  EvPost ("https://hooks.slack.com/services/" +:+ _channel_web_hook_url self)
         (Attachment "Hi" "good" ":rocket:" text).

Definition is_info_post (e : event) : bool :=
  match e with
  | EvPost _ a => bool_decide (a_title a = "Hi")
  | _ => false
  end.

(** The latest of a cursor and the dates of some records. *)
Definition latest (cursor : datetime) (ls : list Log) : datetime :=
  foldl (fun c l => Z.max c (date l)) cursor ls.

(** The state after the given requests to the chat service. *)
Definition requested (w : world) (requests : list event) : world :=
  World (heap w) (_last_update_time w) (clock_reads w) (searches w)
        (slack_calls w + length requests) (events w ++ requests).

(** The events of a turn of the watcher before its sleep: searches, uploads
    and alerts. *)
Definition turn_event (e : event) : bool :=
  is_search e || is_upload e || is_error_post e.

(** A chat service that refuses its [n]-th request and answers the others. *)
Definition refuse_at (n : nat) (k : nat) : Res string :=
  if bool_decide (k = n) then Raise (Exception "URLError" "connection refused")
  else Ok "ok".

(** A search backend that answers the given pages and then is down, and one
    that answers the same page for ever. *)
Definition pages_then_down (ps : list (list hit)) (n : nat) : Res (list hit) :=
  match ps !! n with
  | Some page => Ok page
  | None => Raise (Exception "URLError" "connection refused")
  end.

Definition always_page (page : list hit) (n : nat) : Res (list hit) := Ok page.

(** The term of the query for a stop word: the word between two stars and
    two spaces. *)
Definition stop_word_term (word : string) : string := " *" +:+ word +:+ "* ".

Section FurtherVocabulary.
Context `{Env}.

(** An entry of the list, at position [j], is a near-duplicate of an entry at
    an earlier position [i]. *)
Definition earlier_duplicate (h : list Log) (items : list ref) (y : ref) : Prop :=
  exists i j x, (i < j)%nat /\ items !! i = Some x /\ items !! j = Some y /\
                dup h x y = true.

(** The upload for a record with attributes [l] listed under [app_name]. *)
Definition upload_for (self : SlackSender) (app_name : string) (l : Log) : event :=
  EvUpload "https://slack.com/api/files.upload"
    (Upload (_channel_name self)
            (_bot_token self)
            "java"
            (application l +:+ "-" +:+ severity l)
            (app_name +:+ ".log")
            (str_of_message (message l) +:+ newline +:+ stacktrace l)
            ("application: " +:+ application l +:+ " " +:+ newline +:+
             "members: " +:+ default "anonymous" (RECIPIENTS !! lower app_name) +:+ newline +:+
             "date: " +:+ strftime (date l) "%Y-%m-%d %H:%M")).

(** The uploads for a mapping: application after application, and the
    records of an application in the order of its list. *)
Definition uploads_of (self : SlackSender) (h : list Log) (items : dict) : list event :=
  flat_map (fun '(app_name, logs) => map (fun r => upload_for self app_name (h !!! r)) logs)
           items.

(** The given requests to the chat service, one after the other, up to the
    first that raises. *)
Definition request_all (requests : list event) : M unit :=
  for_each requests (fun request => urlopen_slack request;; mret tt).

End FurtherVocabulary.

(** * Properties *)

(** ** The similarity test *)

Section Scan.
Context (s1 s2 : string).

(** A scan whose counters are below a positive threshold answers [true] only
    after [T] equal characters in a row; [m] is the run that ends just before
    position [i]. *)
Lemma scan_true_run (T : nat) (n : nat) : forall (i : nat) (r : Z) (m : nat),
  (0 < T)%nat -> r < Z.of_nat T -> (m < T)%nat -> (m <= i)%nat ->
  (forall k, (k < m)%nat -> same_at s1 s2 (i - m + k)) ->
  scan s1 s2 (Z.of_nat T) (seq i n) r (Z.of_nat m) = true ->
  exists start, (start + T <= i + n)%nat /\ forall k, (k < T)%nat -> same_at s1 s2 (start + k).
Proof.
  induction n as [|n IH]; intros i r m HT Hr Hm Hmi Hrun; simpl.
  - rewrite bool_decide_eq_true. lia.
  - case_bool_decide as Hsame.
    + case_bool_decide as Hfull.
      * intros _. exists (i - m)%nat. split; [lia|].
        intros k Hk. destruct (decide (k < m)%nat) as [Hlt|Hge]; [by apply Hrun|].
        replace (i - m + k)%nat with i by lia. exact Hsame.
      * replace (Z.of_nat m + 1) with (Z.of_nat (S m)) by lia.
        intros Hscan. destruct (IH (S i) r (S m)) as [start [Hle Hall]]; try lia; try done.
        -- intros k Hk. destruct (decide (k < m)%nat) as [Hlt|Hge].
           ++ replace (S i - S m + k)%nat with (i - m + k)%nat by lia. by apply Hrun.
           ++ replace (S i - S m + k)%nat with i by lia. exact Hsame.
        -- exists start. split; [lia|done].
    + intros Hscan. destruct (IH (S i) (Z.max r (Z.of_nat m)) 0%nat) as [start [Hle Hall]];
        try lia; try done.
      exists start. split; [lia|done].
Qed.

(** A run of [T] equal characters that the scan has not passed makes it
    answer [true], whatever [result] holds. *)
Lemma scan_run_true (T : nat) (n : nat) : forall (i : nat) (r : Z) (m start : nat),
  (0 < T)%nat ->
  (start + T <= i + n)%nat ->
  (forall k, (k < T)%nat -> same_at s1 s2 (start + k)) ->
  (i < start + T)%nat ->
  ((start <= i)%nat -> (i - start <= m)%nat) ->
  scan s1 s2 (Z.of_nat T) (seq i n) r (Z.of_nat m) = true.
Proof.
  induction n as [|n IH]; intros i r m start HT Hend Hrun Hi Hm; simpl.
  - lia.
  - case_bool_decide as Hsame.
    + case_bool_decide as Hfull; [done|].
      replace (Z.of_nat m + 1) with (Z.of_nat (S m)) by lia.
      apply (IH (S i) r (S m) start); try done; lia.
    + assert (i < start)%nat as Hbefore.
      { destruct (decide (i < start)%nat) as [|Hge]; [done|]. exfalso. apply Hsame.
        replace i with (start + (i - start))%nat by lia. apply Hrun. lia. }
      apply (IH (S i) (Z.max r (Z.of_nat m)) 0%nat start); try done; lia.
Qed.

End Scan.

Section IsDuplicate.
Context `{Env}.

(** For a positive threshold the test is the existence of an aligned run of
    that length in the lowered texts. *)
Lemma is_duplicate_run (m1 m2 : string) (T : nat) :
  (0 < T)%nat ->
  _is_duplicate (Some m1) (Some m2) (Z.of_nat T) = true <->
  exists start, aligned_run (lower m1) (lower m2) start T.
Proof.
  intros HT. unfold _is_duplicate, aligned_run.
  set (a := lower m1). set (b := lower m2).
  set (min_len := Nat.min (String.length a) (String.length b)).
  split.
  - intros Hscan.
    destruct (scan_true_run a b T min_len 0 0 0) as [start [Hle Hall]];
      try lia; try done.
    exists start. split; [lia|exact Hall].
  - intros [start [Hle Hall]].
    apply (scan_run_true a b T min_len 0 0 0 start); try done; lia.
Qed.

(** A longer run contains a run of every shorter length. *)
Lemma aligned_run_shorter (a b : string) (start n n' : nat) :
  (n' <= n)%nat -> aligned_run a b start n -> aligned_run a b start n'.
Proof.
  intros Hle [Hin Hall]. split; [lia|]. intros k Hk. apply Hall. lia.
Qed.

Lemma aligned_run_sym (a b : string) (start n : nat) :
  aligned_run a b start n -> aligned_run b a start n.
Proof.
  intros [Hin Hall]. split; [lia|]. intros k Hk. symmetry. by apply Hall.
Qed.

(** The test does not depend on the order of the two messages. *)
Lemma is_duplicate_sym (m1 m2 : option string) :
  _is_duplicate m1 m2 DUPLICATE_THRESHOLD = _is_duplicate m2 m1 DUPLICATE_THRESHOLD.
Proof.
  destruct m1 as [m1|], m2 as [m2|]; try done.
  change DUPLICATE_THRESHOLD with (Z.of_nat 10).
  apply eq_true_iff_eq. rewrite !is_duplicate_run by lia.
  split; intros [start Hrun]; exists start; by apply aligned_run_sym.
Qed.

(** C1: with the threshold 10, [_is_duplicate] answers true for two messages
    whose lowered texts share an aligned run of at least 10 equal characters,
    and false when every aligned run, the one at the end of the scan
    included, is shorter than 10. *)
Theorem is_duplicate_threshold_10 (m1 m2 : string) :
  ((exists start n, (10 <= n)%nat /\ aligned_run (lower m1) (lower m2) start n) ->
   _is_duplicate (Some m1) (Some m2) DUPLICATE_THRESHOLD = true) /\
  ((forall start n, aligned_run (lower m1) (lower m2) start n -> (n < 10)%nat) ->
   _is_duplicate (Some m1) (Some m2) DUPLICATE_THRESHOLD = false).
Proof.
  change DUPLICATE_THRESHOLD with (Z.of_nat 10). split.
  - intros (start & n & Hn & Hrun). apply is_duplicate_run; [lia|].
    exists start. by apply (aligned_run_shorter _ _ _ n).
  - intros Hshort. apply not_true_is_false. rewrite is_duplicate_run by lia.
    intros [start Hrun]. specialize (Hshort start 10%nat Hrun). lia.
Qed.

End IsDuplicate.

Lemma is_duplicate_threshold_10_witness :
  let e := Sample.env (Sample.pages []) Sample.always_ok in
  @_is_duplicate e (Some "NPE at line 10 in FooService")
                   (Some "npe at line 10 in FooService xyz123") DUPLICATE_THRESHOLD = true /\
  @_is_duplicate e (Some "disk full on /var")
                   (Some "disk quota exceeded") DUPLICATE_THRESHOLD = false.
Proof.
  intros e. split.
  - apply (proj1 (@is_duplicate_threshold_10 e _ _)).
    exists 0%nat, 10%nat. split; [lia|]. split; [vm_compute; lia|].
    intros k Hk. do 10 (destruct k as [|k]; [reflexivity|]). lia.
  - apply (proj2 (@is_duplicate_threshold_10 e _ _)).
    intros start n [Hin Hall].
    destruct (decide (n < 10)%nat) as [|Hlong]; [done|]. exfalso.
    assert (start + n <= 17)%nat as Hin' by exact Hin.
    specialize (Hall (7 - start)%nat).
    replace (start + (7 - start))%nat with 7%nat in Hall by lia.
    assert (7 - start < n)%nat as Hk by lia.
    specialize (Hall Hk). vm_compute in Hall. discriminate Hall.
Defined.

(** ** Equality of records *)

Section Equality.
Context `{Env}.

(** C9: [__eq__] answers [False] for every two [Log] objects, the same
    object and two objects with the same five attributes included: no
    instance of [Log] is an instance of [Log.__class__], so the guard returns
    before any attribute is compared. *)
Theorem eq_of_log_objects_false (h : list Log) (self other : ref) :
  isinstance_Log__class__ (ObjLog other) = false /\
  __eq__ h self (ObjLog other) = Ok false.
Proof. split; reflexivity. Qed.

(** What is not a class is never equal to a record, and the class [Log]
    itself, whose [application] is [None], is not either. *)
Lemma eq_of_value_false (h : list Log) (self : ref) (v : pyval) :
  __eq__ h self (ObjValue v) = Ok false.
Proof. reflexivity. Qed.

Lemma eq_of_log_class_false (h : list Log) (self : ref) :
  __eq__ h self ObjLogClass = Ok false.
Proof. reflexivity. Qed.

End Equality.

(** C2: two records with the same application, severity, timestamp, message
    and stack trace are not equal for [__eq__]; not even a record and
    itself. *)
Theorem eq_rejects_identical_records :
  let l := mkLog "billing" "error" (Some "NullPointerException") "at Foo.bar" 1672628645000000 in
  let h := [l; l] in
  h !!! 0%nat = h !!! 1%nat /\
  __eq__ h 0%nat (ObjLog 1%nat) = Ok false /\
  __eq__ h 0%nat (ObjLog 0%nat) = Ok false.
Proof. repeat split. Qed.

(** ** Parsing a timestamp *)

Section ParseTimestamp.
Context `{Env}.

(** C7: [_parse_timestamp] always returns a time and never raises.  A text
    that [strptime] accepts in the format with a fraction gives the time so
    parsed, to the microsecond; a text it accepts only in the format without
    a fraction gives that time; for anything else the result is the time of
    the clock. *)
Theorem parse_timestamp_total (dt_str : pyval) (w : world) :
  (exists d w', _parse_timestamp dt_str w = Some (Ok d, w')) /\
  (forall d, strptime dt_str fractional_format = Ok d ->
     _parse_timestamp dt_str w = Some (Ok d, w)) /\
  (forall e d, strptime dt_str fractional_format = Raise e ->
     strptime dt_str whole_seconds_format = Ok d ->
     _parse_timestamp dt_str w = Some (Ok d, w)) /\
  (forall e e', strptime dt_str fractional_format = Raise e ->
     strptime dt_str whole_seconds_format = Raise e' ->
     exists w', _parse_timestamp dt_str w = Some (Ok (today (clock_reads w)), w') /\
                clock_reads w' = S (clock_reads w)).
Proof.
  unfold _parse_timestamp, try_except, lift, read_clock, fractional_format,
    whole_seconds_format.
  destruct (strptime dt_str "%Y-%m-%dT%H:%M:%S.%fZ") as [d1|e1] eqn:H1;
    destruct (strptime dt_str "%Y-%m-%dT%H:%M:%SZ") as [d2|e2] eqn:H2;
    repeat split; try congruence; eauto.
Qed.

End ParseTimestamp.

Lemma parse_timestamp_total_witness :
  let e := Sample.env (Sample.pages []) Sample.always_ok in
  @_parse_timestamp e (PyStr "2023-01-02T03:04:05.123456Z") Sample.start
    = Some (Ok 1672628645123456, Sample.start) /\
  @_parse_timestamp e (PyStr "2023-01-02T03:04:05Z") Sample.start
    = Some (Ok 1672628645000000, Sample.start) /\
  exists w', @_parse_timestamp e (PyStr "not-a-date") Sample.start
               = Some (Ok (Sample.today 0), w') /\ clock_reads w' = 1%nat.
Proof.
  intros e. split; [|split].
  - apply (proj1 (proj2 (@parse_timestamp_total e _ Sample.start))). reflexivity.
  - eapply (proj1 (proj2 (proj2 (@parse_timestamp_total e _ Sample.start))));
      reflexivity.
  - eapply (proj2 (proj2 (proj2 (@parse_timestamp_total e _ Sample.start))));
      reflexivity.
Defined.

(** ** What a computation leaves as it found it

    A relation between the state before and the state after that every step
    of a computation respects is respected by the computation, whether it
    returns or raises. *)

Section Preserves.
Context (R : relation world) `{!PreOrder R}.

Lemma preserves_ret {A} (a : A) : preserves R (mret a).
Proof. intros w r w' [= <- <-]. reflexivity. Qed.

Lemma preserves_lift {A} (r : Res A) : preserves R (lift r).
Proof. intros w r' w' [= <- <-]. reflexivity. Qed.

Lemma preserves_out_of_fuel {A} : preserves R (@out_of_fuel A).
Proof. intros w r w' [=]. Qed.

Lemma preserves_bind {A B} (m : M A) (f : A -> M B) :
  preserves R m -> (forall a, preserves R (f a)) -> preserves R (m ≫= f).
Proof.
  intros Hm Hf w r w'. unfold mbind, M_bind, bind.
  destruct (m w) as [[[a|e] w1]|] eqn:Hmw; [| |done].
  - intros Hfa. transitivity w1; [by eapply Hm|by eapply Hf].
  - intros [= <- <-]. by eapply Hm.
Qed.

Lemma preserves_try_except {A} (m : M A) (handler : exn -> M A) :
  preserves R m -> (forall e, preserves R (handler e)) -> preserves R (try_except m handler).
Proof.
  intros Hm Hh w r w'. unfold try_except.
  destruct (m w) as [[[a|e] w1]|] eqn:Hmw; [| |done].
  - intros [= <- <-]. by eapply Hm.
  - intros Hhe. transitivity w1; [by eapply Hm|by eapply Hh].
Qed.

Lemma preserves_for_each {A} (xs : list A) (body : A -> M unit) :
  (forall x, preserves R (body x)) -> preserves R (for_each xs body).
Proof.
  intros Hbody. induction xs as [|x xs IH]; simpl.
  - apply preserves_ret.
  - apply preserves_bind; [apply Hbody|intros _; exact IH].
Qed.

End Preserves.

(** The cursor does not go back. *)
Global Instance cursor_le_preorder : PreOrder cursor_le.
Proof. split; unfold cursor_le; [intros w; lia|intros w1 w2 w3; lia]. Qed.

(** Nothing went to the chat service and every new event is a search. *)
Global Instance only_searched_preorder : PreOrder only_searched.
Proof.
  split.
  - intros w. split; [done|]. exists []. by rewrite app_nil_r.
  - intros w1 w2 w3 [Hs1 (evs1 & He1 & Hf1)] [Hs2 (evs2 & He2 & Hf2)].
    split; [congruence|]. exists (evs1 ++ evs2).
    rewrite He2, He1, <- app_assoc, forallb_app, Hf1, Hf2. done.
Qed.

Global Instance only_uploaded_preorder : PreOrder only_uploaded.
Proof.
  split.
  - intros w. repeat split. exists []. rewrite app_nil_r. simpl. by rewrite Nat.add_0_r.
  - intros w1 w2 w3 (Hh1 & Hc1 & Hs1 & evs1 & He1 & Hf1 & Hk1)
      (Hh2 & Hc2 & Hs2 & evs2 & He2 & Hf2 & Hk2).
    repeat split; try congruence. exists (evs1 ++ evs2).
    rewrite He2, He1, <- app_assoc, forallb_app, Hf1, Hf2, Hk2, Hk1, length_app.
    repeat split. lia.
Qed.

(** ** The steps of [load] and of the watcher, one relation at a time *)

Section LoadPreserves.
Context `{Env}.
Context (R : relation world) `{!PreOrder R}.

Hypothesis R_clock : forall w,
  R w (World (heap w) (_last_update_time w) (S (clock_reads w)) (searches w)
             (slack_calls w) (events w)).
Hypothesis R_new_object : forall w l,
  R w (World (heap w ++ [l]) (_last_update_time w) (clock_reads w) (searches w)
             (slack_calls w) (events w)).
Hypothesis R_search : forall w limit,
  R w (World (heap w) (_last_update_time w) (clock_reads w) (S (searches w))
             (slack_calls w) (events w ++ [EvSearch (_last_update_time w) limit])).
Hypothesis R_cursor : forall w d,
  R w (World (heap w) (py_max d (_last_update_time w)) (clock_reads w) (searches w)
             (slack_calls w) (events w)).

Lemma parse_timestamp_preserves (dt_str : pyval) : preserves R (_parse_timestamp dt_str).
Proof.
  unfold _parse_timestamp.
  apply (preserves_try_except R); [apply (preserves_lift R)|intros _].
  apply (preserves_try_except R); [apply (preserves_lift R)|intros _].
  intros w r w' [= <- <-]. apply R_clock.
Qed.

Lemma Log_init_preserves (a s : string) (m st : option string) (ts : pyval) :
  preserves R (Log__init__ a s m st ts).
Proof.
  unfold Log__init__. apply (preserves_bind R); [apply parse_timestamp_preserves|].
  intros d w r w' [= <- <-]. apply R_new_object.
Qed.

Lemma subscript_preserves {A} (value : option A) (key : string) :
  preserves R (subscript value key).
Proof. destruct value; [apply (preserves_ret R)|apply (preserves_lift R)]. Qed.

Lemma parse_preserves (data : list hit) : preserves R (_parse data).
Proof.
  induction data as [|entry data IH]; simpl.
  - apply (preserves_ret R).
  - apply (preserves_bind R); [apply subscript_preserves|intros information].
    apply (preserves_bind R); [apply subscript_preserves|intros application].
    apply (preserves_bind R); [apply subscript_preserves|intros severity].
    apply (preserves_bind R); [apply subscript_preserves|intros timestamp].
    apply (preserves_bind R); [apply Log_init_preserves|intros log].
    apply (preserves_bind R); [exact IH|intros result]. apply (preserves_ret R).
Qed.

Lemma load_json_preserves (limit : Z) : preserves R (_load_json limit).
Proof. intros w r w' [= <- <-]. apply R_search. Qed.

Lemma add_log_preserves (result : dict) (log : ref) : preserves R (add_log result log).
Proof.
  intros w r w'. unfold add_log, mbind, M_bind, bind, attributes, lift,
    get_last_update_time, set_last_update_time, mret, M_ret, ret.
  destruct (get_append _ _ _); intros [= <- <-]; [apply R_cursor|reflexivity].
Qed.

Lemma add_logs_preserves (logs : list ref) : forall result, preserves R (add_logs result logs).
Proof.
  induction logs as [|log logs IH]; intros result; simpl.
  - apply (preserves_ret R).
  - apply (preserves_bind R); [apply add_log_preserves|intros result']. apply IH.
Qed.

Lemma load_loop_preserves (fuel : nat) : forall result, preserves R (load_loop fuel result).
Proof.
  induction fuel as [|fuel IH]; intros result; simpl.
  - apply (preserves_out_of_fuel R).
  - apply (preserves_bind R); [apply load_json_preserves|intros data].
    case_bool_decide; [apply (preserves_ret R)|].
    apply (preserves_bind R); [apply parse_preserves|intros logs].
    apply (preserves_bind R); [apply add_logs_preserves|intros result']. apply IH.
Qed.

Lemma load_preserves (fuel : nat) : preserves R (load fuel).
Proof.
  unfold load. apply (preserves_bind R); [apply load_loop_preserves|intros result].
  apply (preserves_bind R); [ |intros h; apply (preserves_ret R)].
  intros w r w' [= <- <-]. reflexivity.
Qed.

Hypothesis R_post : forall w url a,
  R w (World (heap w) (_last_update_time w) (clock_reads w) (searches w)
             (S (slack_calls w)) (events w ++ [EvPost url a])).
Hypothesis R_upload : forall w url u,
  R w (World (heap w) (_last_update_time w) (clock_reads w) (searches w)
             (S (slack_calls w)) (events w ++ [EvUpload url u])).
Hypothesis R_emit : forall w e,
  R w (World (heap w) (_last_update_time w) (clock_reads w) (searches w)
             (slack_calls w) (events w ++ [e])).

Lemma send_msg_preserves (self : SlackSender) (title text pretext color : string) :
  preserves R (_send_msg self title text pretext color).
Proof.
  unfold _send_msg. apply (preserves_bind R); [ |intros _; apply (preserves_ret R)].
  intros w r w' [= <- <-]. apply R_post.
Qed.

Lemma send_data_preserves (self : SlackSender) (items : dict) :
  preserves R (send_data self items).
Proof.
  unfold send_data. case_bool_decide; [apply (preserves_ret R)|].
  apply (preserves_for_each R); []. intros [app_name logs].
  apply (preserves_for_each R); []. intros log. unfold send_log.
  apply (preserves_bind R); [ |intros l].
  { intros w r w' [= <- <-]. reflexivity. }
  apply (preserves_bind R); [ |intros _; apply (preserves_ret R)].
  intros w r w' [= <- <-]. apply R_upload.
Qed.

Lemma iteration_preserves (_sender : SlackSender) (fuel : nat) :
  preserves R (iteration _sender fuel).
Proof.
  unfold iteration. apply (preserves_bind R); [ |intros logs].
  - apply (preserves_try_except R); [apply load_preserves|intros e].
    apply (preserves_bind R); [apply send_msg_preserves|intros _; apply (preserves_ret R)].
  - apply (preserves_bind R); [ |intros _].
    + apply (preserves_try_except R); [apply send_data_preserves|intros e].
      apply send_msg_preserves.
    + intros w r w' [= <- <-]. apply R_emit.
Qed.

Lemma iterations_preserves (_sender : SlackSender) (fuel n : nat) :
  preserves R (iterations _sender fuel n).
Proof.
  induction n as [|n IH]; simpl; [apply (preserves_ret R)|].
  apply (preserves_bind R); [apply iteration_preserves|intros _; exact IH].
Qed.

Lemma watcher_preserves (_sender : SlackSender) (fuel n : nat) :
  preserves R (watcher _sender fuel n).
Proof.
  unfold watcher.
  apply (preserves_bind R); [apply send_msg_preserves|intros _; apply iterations_preserves].
Qed.

End LoadPreserves.

(** ** Sending a batch *)

Section SendData.
Context `{Env}.

(** Whatever the mapping, [send_data] only uploads: it posts nothing and
    touches neither the heap nor the cursor. *)
Lemma send_data_only_uploads (self : SlackSender) (items : dict) :
  preserves only_uploaded (send_data self items).
Proof.
  apply send_data_preserves; [apply _|]. intros w url u. repeat split. simpl.
  exists [EvUpload url u]. repeat split. simpl. lia.
Qed.

(** C8: for the empty mapping [send_data] returns at once; the state is the
    one it started in, so no request went to the chat service: no upload, no
    post. *)
Theorem send_data_empty (self : SlackSender) (w : world) :
  send_data self [] w = Some (Ok tt, w).
Proof. reflexivity. Qed.

End SendData.

(** ** The dictionary of [load] *)

(** [setdefault] then [get(...).append]: the key is there, nothing is raised,
    and the list under the key has grown by the one object. *)
Lemma get_append_setdefault (d : dict) (k : string) (x : ref) :
  exists d', get_append (setdefault d k []) k x = Ok d' /\
    forall k', dict_get d' k' =
      if bool_decide (k = k') then Some (default [] (dict_get d k) ++ [x])
      else dict_get d k'.
Proof.
  induction d as [|[k0 l0] d IH]; simpl.
  - rewrite bool_decide_eq_true_2 by done. eexists. split; [done|].
    intros k'. simpl. by case_bool_decide.
  - destruct (decide (k0 = k)) as [->|Hne].
    + rewrite bool_decide_eq_true_2 by done. simpl.
      rewrite bool_decide_eq_true_2 by done. eexists. split; [done|].
      intros k'. simpl. by case_bool_decide.
    + rewrite bool_decide_eq_false_2 by done. simpl.
      rewrite bool_decide_eq_false_2 by done.
      destruct IH as (d' & -> & Hget). eexists. split; [done|].
      intros k'. simpl. rewrite Hget.
      destruct (decide (k0 = k')) as [->|Hne'].
      * rewrite bool_decide_eq_true_2 by done. by rewrite bool_decide_eq_false_2 by done.
      * by rewrite (bool_decide_eq_false_2 (k0 = k')) by done.
Qed.

(** ** The cursor *)

Lemma py_max_max (a b : datetime) : py_max a b = Z.max a b.
Proof. unfold py_max. case_bool_decide; lia. Qed.

Section Cursor.
Context `{Env}.

(** One record: the step returns, and the cursor is the greater of what it
    was and the date of the record. *)
Lemma add_log_cursor (result : dict) (log : ref) (w : world) :
  exists result' w',
    add_log result log w = Some (Ok result', w') /\
    _last_update_time w' = Z.max (_last_update_time w) (date (heap w !!! log)) /\
    heap w' = heap w /\ searches w' = searches w /\ clock_reads w' = clock_reads w /\
    slack_calls w' = slack_calls w /\ events w' = events w /\
    forall k, dict_get result' k =
      if bool_decide (application (heap w !!! log) = k)
      then Some (default [] (dict_get result (application (heap w !!! log))) ++ [log])
      else dict_get result k.
Proof.
  unfold add_log, mbind, M_bind, bind, attributes, lift, get_last_update_time,
    set_last_update_time, mret, M_ret, ret.
  destruct (get_append_setdefault result (application (heap w !!! log)) log)
    as (d' & -> & Hget).
  eexists _, _. split; [reflexivity|]. simpl. rewrite py_max_max.
  repeat split; try done. lia.
Qed.

Lemma cursor_le_load (fuel : nat) : preserves cursor_le (load fuel).
Proof.
  apply load_preserves; try apply _; unfold cursor_le; intros; simpl; try lia.
  rewrite py_max_max. lia.
Qed.

Lemma cursor_le_watcher (_sender : SlackSender) (fuel n : nat) :
  preserves cursor_le (watcher _sender fuel n).
Proof.
  apply watcher_preserves; try apply _; unfold cursor_le; intros; simpl; try lia.
  rewrite py_max_max. lia.
Qed.

(** C4: the cursor never moves backwards.  Processing a record sets it to
    the maximum of its value and the timestamp of the record; a poll cycle,
    whether it returns or raises, and any number of turns of the watcher
    leave it where it was or later. *)
Theorem cursor_monotone :
  (forall result log w, exists result' w',
     add_log result log w = Some (Ok result', w') /\
     _last_update_time w' = Z.max (_last_update_time w) (date (heap w !!! log)) /\
     _last_update_time w <= _last_update_time w') /\
  (forall fuel w r w',
     load fuel w = Some (r, w') -> _last_update_time w <= _last_update_time w') /\
  (forall _sender fuel n w r w',
     watcher _sender fuel n w = Some (r, w') ->
     _last_update_time w <= _last_update_time w').
Proof.
  split; [|split].
  - intros result log w.
    destruct (add_log_cursor result log w) as (result' & w' & Hstep & Hcursor & _).
    exists result', w'. split; [done|]. split; [done|]. lia.
  - intros fuel w r w' Hload. by apply (cursor_le_load fuel w r w').
  - intros _sender fuel n w r w' Hrun. by apply (cursor_le_watcher _sender fuel n w r w').
Qed.

End Cursor.

Lemma cursor_monotone_witness :
  let e := Sample.env (Sample.pages [[Sample.hit_a1; Sample.hit_a2]; [Sample.hit_b]])
                      Sample.always_ok in
  (exists r w', @load e 3 Sample.start = Some (r, w') /\
                _last_update_time w' = 1672628646000000 /\
                _last_update_time Sample.start <= _last_update_time w') /\
  (exists r w', @watcher e Sample.sender 3 2 Sample.start = Some (r, w') /\
                _last_update_time Sample.start <= _last_update_time w').
Proof.
  intros e. split.
  - destruct (@load e 3 Sample.start) as [[r w']|] eqn:Hload;
      [|vm_compute in Hload; discriminate Hload].
    exists r, w'. split; [reflexivity|]. split.
    + vm_compute in Hload. by injection Hload as <- <-.
    + exact (proj1 (proj2 (@cursor_monotone e)) 3%nat Sample.start r w' Hload).
  - destruct (@watcher e Sample.sender 3 2 Sample.start) as [[r w']|] eqn:Hrun;
      [|vm_compute in Hrun; discriminate Hrun].
    exists r, w'. split; [reflexivity|].
    exact (proj2 (proj2 (@cursor_monotone e)) Sample.sender 3%nat 2%nat Sample.start r w' Hrun).
Defined.

(** ** A poll cycle that fails *)

Section LoadFails.
Context `{Env}.

Lemma only_searched_load (fuel : nat) : preserves only_searched (load fuel).
Proof.
  apply load_preserves; try apply _; intros; (split; [done|]); simpl.
  - exists []. by rewrite app_nil_r.
  - exists []. by rewrite app_nil_r.
  - by eexists [_].
  - exists []. by rewrite app_nil_r.
Qed.

(** Searches are neither posts nor uploads. *)
Lemma searches_no_transport (evs : list event) :
  forallb is_search evs = true ->
  List.filter is_error_post evs = [] /\ List.filter is_post evs = [] /\
  List.filter is_upload evs = [].
Proof.
  induction evs as [|[gt size|url a|url u|s] evs IH]; simpl; try done.
Qed.

(** C6: a turn of the watcher whose [load] raises goes on as with an empty
    batch.  Past the events of [load], all of them searches, it makes one
    request to the chat service, the post of [send_error], and no upload;
    when that post is answered the turn ends with the sleep, and when it
    raises the turn ends there. *)
Theorem load_failure_one_error_no_upload (_sender : SlackSender) (fuel : nat)
    (w w1 : world) (e : exn) :
  load fuel w = Some (Raise e, w1) ->
  iteration _sender fuel w =
    (send_error _sender (load_error_text e);;
     try_except (send_data _sender [])
       (fun e' => send_error _sender
          ("error happened while sending notifies about errors: " +:+ exn_text e'));;
     sleep DELAY_SECONDS) w1 /\
  exists r w' evs,
    iteration _sender fuel w = Some (r, w') /\
    events w' = events w ++ evs /\
    List.filter is_error_post evs = [error_post _sender (load_error_text e)] /\
    List.filter is_post evs = [error_post _sender (load_error_text e)] /\
    List.filter is_upload evs = [] /\
    slack_calls w' = S (slack_calls w).
Proof.
  intros Hload.
  assert (iteration _sender fuel w =
    (send_error _sender (load_error_text e);;
     try_except (send_data _sender [])
       (fun e' => send_error _sender
          ("error happened while sending notifies about errors: " +:+ exn_text e'));;
     sleep DELAY_SECONDS) w1) as Hturn.
  { unfold iteration, mbind, M_bind, bind, try_except at 1. rewrite Hload.
    unfold send_error, _send_msg, mbind, M_bind, bind, urlopen_slack. simpl.
    by destruct (slack_reply (slack_calls w1)). }
  split; [exact Hturn|]. rewrite Hturn.
  destruct (only_searched_load fuel w _ w1 Hload) as [Hcalls (evs0 & Hevs & Hsearch)].
  destruct (searches_no_transport evs0 Hsearch) as (He & Hp & Hu).
  unfold send_error, _send_msg, mbind, M_bind, bind, urlopen_slack, load_error_text.
  destruct (slack_reply (slack_calls w1)) as [answer|e'] eqn:Hreply; simpl.
  - eexists _, _, (evs0 ++ [error_post _sender (load_error_text e); EvSleep DELAY_SECONDS]).
    split; [reflexivity|]. simpl. rewrite Hevs, <- !app_assoc. split; [done|].
    rewrite !List.filter_app, He, Hp, Hu. simpl.
    by rewrite Hcalls.
  - eexists _, _, (evs0 ++ [error_post _sender (load_error_text e)]).
    split; [reflexivity|]. simpl. rewrite Hevs, <- !app_assoc. split; [done|].
    rewrite !List.filter_app, He, Hp, Hu. simpl.
    by rewrite Hcalls.
Qed.

End LoadFails.

Lemma load_failure_one_error_no_upload_witness :
  let e := Sample.env Sample.search_down Sample.always_ok in
  exists r w' evs,
    @iteration e Sample.sender 3 Sample.start = Some (r, w') /\
    events w' = events Sample.start ++ evs /\
    List.filter is_error_post evs =
      [error_post Sample.sender
         "error happened while loading logs from elastic search:connection refused"] /\
    List.filter is_post evs =
      [error_post Sample.sender
         "error happened while loading logs from elastic search:connection refused"] /\
    List.filter is_upload evs = [] /\
    slack_calls w' = 1%nat.
Proof.
  intros e.
  refine (proj2 (@load_failure_one_error_no_upload e Sample.sender 3 Sample.start
                   (World [] 0 0 1 0 [EvSearch 0 100])
                   (Exception "URLError" "connection refused") _)).
  vm_compute. reflexivity.
Defined.

(** ** The deduplicator *)

Section Deduplicator.
Context `{Env}.
Context (h : list Log).

Lemma dup_sym (x y : ref) : dup h x y = dup h y x.
Proof. apply is_duplicate_sym. Qed.

Lemma inner_loop_spec (x : ref) (later : list ref) : forall (s : gset ref) (y : ref),
  y ∈ inner_loop h x later s <-> y ∈ s /\ ~ (y ∈ later /\ dup h x y = true).
Proof.
  unfold inner_loop. induction later as [|a later IH]; intros s y; simpl.
  - split; [|tauto]. intros Hy. split; [done|]. intros [Hin _]. by apply elem_of_nil in Hin.
  - rewrite IH. fold (dup h x a).
    destruct (dup h x a) eqn:Hdup; simpl.
    + case_bool_decide as Hin.
      * rewrite elem_of_difference, elem_of_singleton, elem_of_cons.
        split.
        -- intros [[Hy Hne] Hlater]. split; [done|]. intros [[->|Hl] Hd]; [done|].
           by apply Hlater.
        -- intros [Hy Hno]. split; [split; [done|]|].
           ++ intros ->. apply Hno. split; [by left|done].
           ++ intros [Hl Hd]. apply Hno. split; [by right|done].
      * rewrite elem_of_cons. split.
        -- intros [Hy Hlater]. split; [done|]. intros [[->|Hl] Hd]; [done|].
           by apply Hlater.
        -- intros [Hy Hno]. split; [done|]. intros [Hl Hd]. apply Hno.
           split; [by right|done].
    + rewrite elem_of_cons. split.
      * intros [Hy Hlater]. split; [done|]. intros [[->|Hl] Hd]; [congruence|].
        by apply Hlater.
      * intros [Hy Hno]. split; [done|]. intros [Hl Hd]. apply Hno.
        split; [by right|done].
Qed.

Lemma outer_loop_spec (items : list ref) : forall (s : gset ref) (y : ref),
  y ∈ outer_loop h items s <-> y ∈ s /\ ~ removed h items y.
Proof.
  induction items as [|x later IH]; intros s y; simpl.
  - tauto.
  - rewrite IH, inner_loop_spec. tauto.
Qed.

(** The survivors: the objects of the list that no earlier entry makes a
    near-duplicate, each once. *)
Lemma remove_useless_logs_elem (items : list ref) (y : ref) :
  y ∈ remove_useless_logs h items <-> y ∈ items /\ ~ removed h items y.
Proof.
  unfold remove_useless_logs.
  rewrite (set_order_elements items), elem_of_elements, outer_loop_spec,
    elem_of_list_to_set.
  done.
Qed.

Lemma remove_useless_logs_NoDup (items : list ref) :
  NoDup (remove_useless_logs h items).
Proof.
  unfold remove_useless_logs. rewrite (set_order_elements items). apply NoDup_elements.
Qed.

(** Of two different objects of the list of which one makes the other a
    near-duplicate, the later one is removed. *)
Lemma removed_one_of (items : list ref) (x y : ref) :
  x ∈ items -> y ∈ items -> x <> y -> dup h x y = true ->
  removed h items x \/ removed h items y.
Proof.
  induction items as [|a later IH]; intros Hx Hy Hne Hdup; [by apply elem_of_nil in Hx|].
  apply elem_of_cons in Hx as [->|Hx]; apply elem_of_cons in Hy as [->|Hy]; simpl.
  - done.
  - right. left. done.
  - left. left. split; [done|]. by rewrite dup_sym.
  - destruct (IH Hx Hy Hne Hdup); tauto.
Qed.

(** In a list without repetition whose objects are no near-duplicates of one
    another nothing is removed. *)
Lemma removed_none (items : list ref) (y : ref) :
  NoDup items ->
  (forall a b, a ∈ items -> b ∈ items -> a <> b -> dup h a b = false) ->
  ~ removed h items y.
Proof.
  induction items as [|x later IH]; intros Hnd Hpair; simpl; [tauto|].
  apply NoDup_cons in Hnd as [Hx Hnd]. intros [[Hy Hdup]|Hrem].
  - rewrite Hpair in Hdup; [done|by left|by right|]. intros ->. done.
  - apply IH in Hrem; [done|done|]. intros a b Ha Hb. apply Hpair; by right.
Qed.

(** C3: the deduplicator is idempotent.  Applied to its own output, in
    whatever order the set gave it, it keeps every record of it and nothing
    else: the second output is a permutation of the first. *)
Theorem remove_useless_logs_idempotent (items : list ref) :
  remove_useless_logs h (remove_useless_logs h items) ≡ₚ remove_useless_logs h items.
Proof.
  apply NoDup_Permutation; try apply remove_useless_logs_NoDup.
  intros y. rewrite (remove_useless_logs_elem (remove_useless_logs h items)).
  split; [tauto|]. intros Hy. split; [done|].
  apply removed_none; [apply remove_useless_logs_NoDup|].
  intros a b Ha Hb Hne. apply remove_useless_logs_elem in Ha as [Ha Hra].
  apply remove_useless_logs_elem in Hb as [Hb Hrb].
  destruct (dup h a b) eqn:Hdup; [|done].
  destruct (removed_one_of items a b Ha Hb Hne Hdup); tauto.
Qed.

(** The lists [load] hands to the deduplicator, the references of one
    application among those of the objects it has just built, name no object
    twice. *)
Lemma filter_seq_NoDup (P : ref -> Prop) `{!forall r, Decision (P r)} (start len : nat) :
  NoDup (filter P (seq start len)).
Proof. apply NoDup_filter, NoDup_seq. Qed.

(** An object that stands once in the list, at its head, is not removed. *)
Lemma head_not_removed (x : ref) (later : list ref) :
  x ∉ later -> ~ removed h (x :: later) x.
Proof.
  intros Hx. simpl. intros [[Hin _]|Hrem]; [done|].
  clear -Hx Hrem. induction later as [|a later IH]; simpl in *; [done|].
  destruct Hrem as [[Hin _]|Hrem].
  - apply Hx. by right.
  - apply IH; [|done]. intros Hin. apply Hx. by right.
Qed.





End Deduplicator.

Lemma remove_useless_logs_idempotent_witness :
  let e := Sample.env (Sample.pages []) Sample.always_ok in
  let h := Sample.three_logs in
  @remove_useless_logs e h [0; 1; 2]%nat = [2; 0]%nat /\
  @remove_useless_logs e h (@remove_useless_logs e h [0; 1; 2]%nat) ≡ₚ
  @remove_useless_logs e h [0; 1; 2]%nat.
Proof.
  intros e h. split; [by vm_compute|].
  exact (@remove_useless_logs_idempotent e h [0; 1; 2]%nat).
Defined.



(** ** The poll cycle *)

Lemma grouped_app (old : option (list ref)) (a b : list ref) :
  grouped (grouped old a) b = grouped old (a ++ b).
Proof.
  destruct a as [|x a], b as [|y b]; simpl; try done.
  - by rewrite app_nil_r.
  - by rewrite <- app_assoc.
Qed.

Section PollCycle.
Context `{Env}.

Lemma parse_timestamp_returns (dt_str : pyval) (w : world) :
  exists d w', _parse_timestamp dt_str w = Some (Ok d, w') /\
    heap w' = heap w /\ rest_unchanged w w'.
Proof.
  unfold _parse_timestamp, try_except, lift, read_clock, rest_unchanged.
  destruct (strptime dt_str "%Y-%m-%dT%H:%M:%S.%fZ");
    [|destruct (strptime dt_str "%Y-%m-%dT%H:%M:%SZ")];
    eexists _, _; (split; [reflexivity|done]).
Qed.

Lemma parse_returns (data : list hit) : forall w,
  forallb has_keys data = true ->
  exists w' new,
    _parse data w = Some (Ok (seq (length (heap w)) (length data)), w') /\
    heap w' = heap w ++ new /\ Forall2 built_from data new /\ rest_unchanged w w'.
Proof.
  induction data as [|entry data IH]; intros w Hkeys; simpl.
  - exists w, []. rewrite app_nil_r. by repeat split.
  - simpl in Hkeys. apply andb_true_iff in Hkeys as [Hentry Hkeys].
    unfold has_keys, missing_key in Hentry.
    destruct (h_source entry) as [information|] eqn:Hsource; [|discriminate Hentry].
    destruct (s_application information) as [application|] eqn:Happlication;
      [|discriminate Hentry].
    destruct (s_severity information) as [severity|] eqn:Hseverity; [|discriminate Hentry].
    destruct (s_timestamp information) as [timestamp|] eqn:Htimestamp; [|discriminate Hentry].
    unfold subscript, Log__init__, mbind, M_bind, bind, mret, M_ret, ret.
    rewrite Happlication, Hseverity, Htimestamp. cbv beta iota.
    destruct (parse_timestamp_returns timestamp w)
      as (d & w1 & -> & Hheap1 & Hc1 & Hs1 & Hk1 & He1).
    unfold new_object at 1. rewrite Hheap1.
    set (l := mkLog _ _ _ _ d).
    set (w2 := World (heap w ++ [l]) _ _ _ _ _).
    destruct (IH w2 Hkeys) as (w' & new & Hparse & Hheap & Hbuilt & Hc & Hs & Hk & He).
    exists w', (l :: new).
    replace (length (heap w2)) with (S (length (heap w))) in Hparse
      by (simpl; rewrite length_app; simpl; lia).
    fold (@mret M _ (list ref)) in Hparse.
    unfold mbind, M_bind, bind, mret, M_ret, ret in Hparse.
    rewrite Hparse. split; [done|]. split.
    { rewrite Hheap. simpl. by rewrite <- app_assoc. }
    split.
    { constructor; [|done]. exists information. by rewrite Happlication, Hseverity. }
    unfold rest_unchanged. simpl in *. repeat split; congruence.
Qed.

(** A hit that lacks a key stops [_parse] with [KeyError], after the objects
    of the hits before it were built. *)
Lemma parse_raises (good : list hit) (bad : hit) (rest : list hit) (key : string) :
  forall w,
  forallb has_keys good = true -> missing_key bad = Some key ->
  exists w' new,
    _parse (good ++ bad :: rest) w = Some (Raise (KeyError key), w') /\
    heap w' = heap w ++ new /\ Forall2 built_from good new /\ rest_unchanged w w'.
Proof.
  induction good as [|entry good IH]; intros w Hkeys Hbad; simpl.
  - exists w, []. rewrite app_nil_r. split; [|by repeat split].
    unfold missing_key in Hbad.
    unfold subscript, mbind, M_bind, bind, mret, M_ret, ret, lift.
    destruct (h_source bad) as [information|]; [|by injection Hbad as <-].
    destruct (s_application information); [|by injection Hbad as <-].
    destruct (s_severity information); [|by injection Hbad as <-].
    destruct (s_timestamp information); [discriminate Hbad|by injection Hbad as <-].
  - simpl in Hkeys. apply andb_true_iff in Hkeys as [Hentry Hkeys].
    unfold has_keys, missing_key in Hentry.
    destruct (h_source entry) as [information|] eqn:Hsource; [|discriminate Hentry].
    destruct (s_application information) as [application|] eqn:Happlication;
      [|discriminate Hentry].
    destruct (s_severity information) as [severity|] eqn:Hseverity; [|discriminate Hentry].
    destruct (s_timestamp information) as [timestamp|] eqn:Htimestamp; [|discriminate Hentry].
    unfold subscript at 1 2 3 4. unfold Log__init__, mbind, M_bind, bind, mret, M_ret, ret.
    rewrite Happlication, Hseverity, Htimestamp. cbv beta iota.
    destruct (parse_timestamp_returns timestamp w)
      as (d & w1 & -> & Hheap1 & Hc1 & Hs1 & Hk1 & He1).
    unfold new_object at 1. rewrite Hheap1.
    set (l := mkLog _ _ _ _ d).
    set (w2 := World (heap w ++ [l]) _ _ _ _ _).
    destruct (IH w2 Hkeys Hbad) as (w' & new & Hparse & Hheap & Hbuilt & Hc & Hs & Hk & He).
    exists w', (l :: new).
    rewrite Hparse. split; [done|]. split.
    { rewrite Hheap. simpl. by rewrite <- app_assoc. }
    split.
    { constructor; [|done]. exists information. by rewrite Happlication, Hseverity. }
    unfold rest_unchanged. simpl in *. repeat split; congruence.
Qed.

(** The objects of a list come under their applications, in order. *)
Lemma add_logs_returns (logs : list ref) : forall (result : dict) (w : world),
  exists result' w',
    add_logs result logs w = Some (Ok result', w') /\
    heap w' = heap w /\ searches w' = searches w /\ slack_calls w' = slack_calls w /\
    forall k, dict_get result' k =
      grouped (dict_get result k) (filter (fun r => application (heap w !!! r) = k) logs).
Proof.
  induction logs as [|log logs IH]; intros result w; simpl.
  - by exists result, w.
  - unfold mbind, M_bind, bind.
    destruct (add_log_cursor result log w)
      as (result1 & w1 & -> & _ & Hheap1 & Hs1 & _ & Hk1 & _ & Hget1).
    destruct (IH result1 w1) as (result' & w' & -> & Hheap & Hs & Hk & Hget).
    exists result', w'. split; [done|]. repeat split; try congruence.
    intros k. rewrite Hget, Hget1, Hheap1.
    destruct (decide (application (heap w !!! log) = k)) as [Heq|Hne].
    + rewrite bool_decide_eq_true_2 by done. rewrite filter_cons_True by done.
      rewrite Heq. destruct (filter _ logs); simpl; [done|].
      by rewrite <- app_assoc.
    + rewrite bool_decide_eq_false_2 by done. by rewrite filter_cons_False by done.
Qed.

(** Two tests that agree on the elements of a list filter it alike. *)
Lemma filter_agree {A} (P Q : A -> Prop) `{!forall x, Decision (P x)}
    `{!forall x, Decision (Q x)} (l : list A) :
  (forall x, x ∈ l -> (P x <-> Q x)) -> filter P l = filter Q l.
Proof.
  induction l as [|a l IH]; intros Hagree; [done|].
  assert (filter P l = filter Q l) as Hl.
  { apply IH. intros x Hx. apply Hagree. by right. }
  destruct (decide (P a)) as [HP|HP].
  - rewrite !filter_cons_True; [by rewrite Hl| |done]. apply Hagree; [by left|done].
  - rewrite !filter_cons_False; [done| |done]. intros HQ. apply HP, Hagree; [by left|done].
Qed.

(** A filter on the applications of objects that are in the heap does not
    see what is put on the heap later. *)
Lemma filter_application_grown (h new : list Log) (k : string) (start len : nat) :
  (start + len <= length h)%nat ->
  filter (fun r => application ((h ++ new) !!! r) = k) (seq start len) =
  filter (fun r => application (h !!! r) = k) (seq start len).
Proof.
  intros Hin. apply filter_agree. intros r Hr.
  apply elem_of_seq in Hr. by rewrite lookup_total_app_l by lia.
Qed.

(** The loop stops at the first empty page: after [n] pages that are not
    empty and one that is, it has searched [n + 1] times, built one object a
    hit and put each under its application. *)
Lemma load_loop_returns (n : nat) : forall (fuel : nat) (result : dict) (w : world),
  (n < fuel)%nat ->
  (forall k, (k < n)%nat ->
     exists page, search_reply (searches w + k) = Ok page /\ page <> [] /\
                 forallb has_keys page = true) ->
  search_reply (searches w + n) = Ok [] ->
  exists result' w' new,
    load_loop fuel result w = Some (Ok result', w') /\
    searches w' = S (searches w + n) /\
    heap w' = heap w ++ new /\
    Forall2 built_from (fetched (searches w) n) new /\
    slack_calls w' = slack_calls w /\
    forall k, dict_get result' k =
      grouped (dict_get result k)
        (filter (fun r => application (heap w' !!! r) = k)
                (seq (length (heap w)) (length new))).
Proof.
  induction n as [|n IH]; intros fuel result w Hfuel Hpages Hlast;
    (destruct fuel as [|fuel]; [lia|]); simpl;
    unfold mbind, M_bind, bind, _load_json at 1.
  - rewrite Nat.add_0_r in Hlast. rewrite Hlast. simpl.
    eexists result, _, []. split; [reflexivity|]. simpl.
    rewrite app_nil_r, Nat.add_0_r. by repeat split.
  - destruct (Hpages 0%nat) as (page & Hpage & Hne & Hkeys); [lia|].
    rewrite Nat.add_0_r in Hpage. rewrite Hpage.
    rewrite bool_decide_eq_false_2 by (by destruct page).
    set (w0 := World _ _ _ _ _ _).
    destruct (parse_returns page w0 Hkeys) as (w1 & new1 & -> & Hheap1 & Hbuilt1 & Hc1 & Hs1 & Hk1 & He1).
    destruct (add_logs_returns (seq (length (heap w0)) (length page)) result w1)
      as (result1 & w2 & -> & Hheap2 & Hs2 & Hk2 & Hget2).
    destruct (IH fuel result1 w2) as (result' & w' & new2 & -> & Hs & Hheap & Hbuilt & Hk & Hget).
    { lia. }
    { intros k Hk. rewrite Hs2, Hs1. unfold w0. cbn [searches].
      replace (S (searches w) + k)%nat with (searches w + S k)%nat by lia.
      apply Hpages. lia. }
    { rewrite Hs2, Hs1. unfold w0. cbn [searches].
      by replace (S (searches w) + n)%nat with (searches w + S n)%nat by lia. }
    exists result', w', (new1 ++ new2).
    assert (length new1 = length page) as Hlen by (symmetry; by eapply Forall2_length).
    split; [done|]. split; [rewrite Hs, Hs2, Hs1; simpl; lia|].
    split; [rewrite Hheap, Hheap2, Hheap1; simpl; by rewrite <- app_assoc|].
    split.
    { unfold page_at at 1. rewrite Hpage. apply Forall2_app; [done|].
      by rewrite Hs2, Hs1 in Hbuilt. }
    split; [by rewrite Hk, Hk2, Hk1|].
    intros k. rewrite Hget, Hget2, grouped_app. f_equal.
    rewrite length_app, seq_app, filter_app. f_equal.
    + rewrite Hheap, Hheap2, Hlen. simpl.
      rewrite filter_application_grown; [done|]. rewrite Hheap1, length_app. simpl. lia.
    + rewrite Hheap2, Hheap1, length_app, Hlen. done.
Qed.

Lemma dict_get_dedup_values (h : list Log) (d : dict) (k : string) :
  dict_get (dedup_values h d) k = remove_useless_logs h <$> dict_get d k.
Proof.
  induction d as [|[k0 l0] d IH]; simpl; [done|]. by case_bool_decide.
Qed.

(** C5, amended: when the searches are answered with [n] pages that are not
    empty, whose hits all have the keys ['_source'], ['application'],
    ['severity'] and ['@timestamp'], and then with an empty page, the loop of
    [load] stops at that page, after [n + 1] searches.  An object is built
    for each hit fetched, in order, at the end of the heap.  Under each
    application the mapping returned holds the deduplicator's output,
    [remove_useless_logs] applied once, for the list of the objects of that
    application in the order fetched; an application without a hit has no
    key. *)
Theorem load_stops_at_first_empty_page (n fuel : nat) (w : world) :
  (n < fuel)%nat ->
  (forall k, (k < n)%nat ->
     exists page, search_reply (searches w + k) = Ok page /\ page <> [] /\
                 forallb has_keys page = true) ->
  search_reply (searches w + n) = Ok [] ->
  exists result w' new,
    load fuel w = Some (Ok result, w') /\
    searches w' = S (searches w + n) /\
    heap w' = heap w ++ new /\
    Forall2 built_from (fetched (searches w) n) new /\
    forall k, dict_get result k =
      match filter (fun r => application (heap w' !!! r) = k)
                   (seq (length (heap w)) (length new)) with
      | [] => None
      | log_list => Some (remove_useless_logs (heap w') log_list)
      end.
Proof.
  intros Hfuel Hpages Hlast.
  destruct (load_loop_returns n fuel [] w Hfuel Hpages Hlast)
    as (result' & w' & new & Hloop & Hs & Hheap & Hbuilt & Hk & Hget).
  exists (dedup_values (heap w') result'), w', new.
  split; [|repeat split; try done].
  - unfold load, mbind, M_bind, bind. by rewrite Hloop.
  - intros k. rewrite dict_get_dedup_values, Hget. simpl.
    by destruct (filter _ _).
Qed.

End PollCycle.

Lemma load_stops_at_first_empty_page_witness :
  let e := Sample.env (Sample.pages [[Sample.hit_a1; Sample.hit_a2]; [Sample.hit_b]])
                      Sample.always_ok in
  exists result w' new,
    @load e 3 Sample.start = Some (Ok result, w') /\
    searches w' = 3%nat /\
    heap w' = heap Sample.start ++ new /\
    Forall2 built_from (@fetched e 0 2) new /\
    forall k, dict_get result k =
      match filter (fun r => application (heap w' !!! r) = k)
                   (seq (length (heap Sample.start)) (length new)) with
      | [] => None
      | log_list => Some (@remove_useless_logs e (heap w') log_list)
      end.
Proof.
  intros e.
  refine (@load_stops_at_first_empty_page e 2 3 Sample.start _ _ _).
  - lia.
  - intros k Hk. destruct k as [|[|k]]; [| |lia].
    + exists [Sample.hit_a1; Sample.hit_a2]. split; [reflexivity|split; [discriminate|reflexivity]].
    + exists [Sample.hit_b]. split; [reflexivity|split; [discriminate|reflexivity]].
  - reflexivity.
Defined.

(** C5, the counterexample: the first page holds a hit without
    ['application'], the second page is empty.  [_parse] raises [KeyError]
    on the first page, [load] raises with it after one search and returns no
    mapping: the empty page is never asked for.  The same happens for a hit
    without ['_source'], ['severity'] or ['@timestamp']. *)
Lemma load_raises_on_missing_key :
  let run bad :=
    @load (Sample.env (Sample.pages [[Sample.hit_a1; bad]]) Sample.always_ok) 3 Sample.start in
  @search_reply (Sample.env (Sample.pages [[Sample.hit_a1; Sample.hit_no_application]])
                            Sample.always_ok) 1 = Ok [] /\
  fst <$> run Sample.hit_no_application = Some (Raise (KeyError "application")) /\
  searches ∘ snd <$> run Sample.hit_no_application = Some 1%nat /\
  fst <$> run Sample.hit_no_source = Some (Raise (KeyError "_source")) /\
  fst <$> run Sample.hit_no_severity = Some (Raise (KeyError "severity")) /\
  fst <$> run Sample.hit_no_timestamp = Some (Raise (KeyError "@timestamp")) /\
  ~ (exists result w', run Sample.hit_no_application = Some (Ok result, w')).
Proof.
  intros run. repeat split; try (vm_compute; reflexivity).
  intros (result & w' & Hrun).
  assert (fst <$> run Sample.hit_no_application = Some (Ok result)) as Hfst
    by (by rewrite Hrun).
  vm_compute in Hfst. discriminate Hfst.
Defined.

(** ** The sample run

    Two near-duplicate errors of one application and one error of another
    come in two pages: one object of each application is left, the cursor is
    at the latest date, and a watcher turn uploads the two that are left. *)

Example load_sample :
  let e := Sample.env (Sample.pages [[Sample.hit_a1; Sample.hit_a2]; [Sample.hit_b]])
                      Sample.always_ok in
  exists w', @load e 3 Sample.start = Some (Ok [("billing", [0%nat]); ("search", [2%nat])], w') /\
             _last_update_time w' = 1672628646000000 /\
             searches w' = 3%nat.
Proof. eexists. split; [by vm_compute|done]. Qed.

Example watcher_sample :
  let e := Sample.env (Sample.pages [[Sample.hit_a1; Sample.hit_a2]; [Sample.hit_b]])
                      Sample.always_ok in
  match @watcher e Sample.sender 3 1 Sample.start with
  | Some (Ok tt, w') =>
      length (List.filter is_upload (events w')) = 2%nat /\
      length (List.filter is_post (events w')) = 1%nat /\
      List.filter is_error_post (events w') = []
  | _ => False
  end.
Proof. by vm_compute. Qed.

(** Without enough fuel for the empty page the model of the loop gives no
    result. *)
Example load_out_of_fuel :
  let e := Sample.env (Sample.pages [[Sample.hit_a1; Sample.hit_a2]; [Sample.hit_b]])
                      Sample.always_ok in
  @load e 2 Sample.start = None.
Proof. by vm_compute. Qed.

(** * Further properties *)

(** ** More on the similarity test *)

Section IsDuplicateMore.
Context `{Env}.

Lemma scan_sym (s1 s2 : string) (threshold : Z) (indices : list nat) :
  forall result count,
    scan s1 s2 threshold indices result count = scan s2 s1 threshold indices result count.
Proof.
  induction indices as [|index indices IH]; intros result count; simpl; [done|].
  destruct (decide (String.get index s1 = String.get index s2)) as [Heq|Hne].
  - rewrite (bool_decide_eq_true_2 _ Heq), (bool_decide_eq_true_2 _ (eq_sym Heq)).
    by rewrite IH.
  - rewrite (bool_decide_eq_false_2 _ Hne),
      (bool_decide_eq_false_2 (String.get index s2 = String.get index s1)) by congruence.
    apply IH.
Qed.

(** A message of fewer than ten characters is a near-duplicate of nothing. *)
Lemma is_duplicate_short_false (s : string) (m : option string) :
  (String.length (lower s) < 10)%nat ->
  _is_duplicate (Some s) m DUPLICATE_THRESHOLD = false.
Proof.
  intros Hshort. destruct m as [s'|]; [|done].
  apply not_true_is_false. change DUPLICATE_THRESHOLD with (Z.of_nat 10).
  rewrite is_duplicate_run by lia. intros [start [Hin _]]. lia.
Qed.

(** X1: for every positive threshold the test answers true exactly when the
    lowered texts have an aligned run of that many equal characters; the
    comparison after the loop never makes it true. *)
Theorem is_duplicate_positive_threshold (m1 m2 : string) (threshold : Z) :
  0 < threshold ->
  _is_duplicate (Some m1) (Some m2) threshold = true <->
  exists start, aligned_run (lower m1) (lower m2) start (Z.to_nat threshold).
Proof.
  intros Hpos. pose proof (is_duplicate_run m1 m2 (Z.to_nat threshold)) as Hrun.
  rewrite Z2Nat.id in Hrun by lia. apply Hrun. lia.
Qed.

(** X2: the test does not depend on the order of its two messages, for
    every threshold and also when a message is missing. *)
Theorem is_duplicate_symmetric (m1 m2 : option string) (threshold : Z) :
  _is_duplicate m1 m2 threshold = _is_duplicate m2 m1 threshold.
Proof.
  destruct m1 as [s1|], m2 as [s2|]; try done. unfold _is_duplicate.
  by rewrite scan_sym, Nat.min_comm.
Qed.

(** X3: a message that is missing, or whose lowered text has fewer than ten
    characters, is a near-duplicate of no message, on either side: two equal
    short messages are not near-duplicates. *)
Theorem is_duplicate_missing_or_short (m1 m2 : option string) :
  (forall s, m1 = Some s -> (String.length (lower s) < 10)%nat) ->
  _is_duplicate m1 m2 DUPLICATE_THRESHOLD = false /\
  _is_duplicate m2 m1 DUPLICATE_THRESHOLD = false.
Proof.
  intros Hshort. rewrite (is_duplicate_sym m2 m1).
  destruct m1 as [s|]; [|by destruct m2].
  split; apply is_duplicate_short_false; by apply Hshort.
Qed.

(** X4: two messages with the same lowered text, a message and itself among
    them, are near-duplicates exactly when that text has ten characters or
    more. *)
Theorem is_duplicate_same_text (s1 s2 : string) :
  lower s1 = lower s2 ->
  _is_duplicate (Some s1) (Some s2) DUPLICATE_THRESHOLD = true <->
  (10 <= String.length (lower s1))%nat.
Proof.
  intros Hsame. change DUPLICATE_THRESHOLD with (Z.of_nat 10).
  rewrite is_duplicate_run by lia. rewrite <- Hsame. split.
  - intros [start [Hin _]]. lia.
  - intros Hlong. exists 0%nat. split; [lia|]. by intros k Hk.
Qed.

End IsDuplicateMore.

Lemma is_duplicate_positive_threshold_witness :
  let e := Sample.env (Sample.pages []) Sample.always_ok in
  @_is_duplicate e (Some "Disk Full") (Some "disk fuzz") 7 = true <->
  exists start, aligned_run (Sample.lower "Disk Full") (Sample.lower "disk fuzz") start 7.
Proof.
  intros e. apply (@is_duplicate_positive_threshold e "Disk Full" "disk fuzz" 7). lia.
Defined.

Lemma is_duplicate_missing_or_short_witness :
  let e := Sample.env (Sample.pages []) Sample.always_ok in
  @_is_duplicate e (Some "timeout") (Some "timeout after 30 seconds")
                 DUPLICATE_THRESHOLD = false /\
  @_is_duplicate e (Some "timeout after 30 seconds") (Some "timeout")
                 DUPLICATE_THRESHOLD = false.
Proof.
  intros e.
  apply (@is_duplicate_missing_or_short e (Some "timeout") (Some "timeout after 30 seconds")).
  intros s [= <-]. vm_compute. lia.
Defined.

Lemma is_duplicate_same_text_witness :
  let e := Sample.env (Sample.pages []) Sample.always_ok in
  @_is_duplicate e (Some "Connection Refused") (Some "connection refused")
                 DUPLICATE_THRESHOLD = true <->
  (10 <= String.length (Sample.lower "Connection Refused"))%nat.
Proof.
  intros e.
  apply (@is_duplicate_same_text e "Connection Refused" "connection refused").
  reflexivity.
Defined.

(** ** More on the deduplicator *)

Section DeduplicatorMore.
Context `{Env}.
Context (h : list Log).

(** The pairs the loops visit are the pairs of positions [i < j]. *)
Lemma removed_earlier_duplicate (items : list ref) (y : ref) :
  removed h items y <-> earlier_duplicate h items y.
Proof.
  unfold earlier_duplicate. induction items as [|a later IH]; simpl.
  - split; [done|]. by intros (i & j & x & _ & Hi & _).
  - rewrite IH. split.
    + intros [[Hin Hdup]|(i & j & x & Hlt & Hi & Hj & Hdup)].
      * apply list_elem_of_lookup in Hin as [j Hj].
        exists 0%nat, (S j), a. repeat split; try done; lia.
      * exists (S i), (S j), x. repeat split; try done; lia.
    + intros (i & j & x & Hlt & Hi & Hj & Hdup).
      destruct j as [|j]; [lia|]. simpl in Hj. destruct i as [|i].
      * injection Hi as ->. left. split; [|done]. apply list_elem_of_lookup. by exists j.
      * right. exists i, j, x. repeat split; try done; lia.
Qed.

(** No two different survivors are near-duplicates of one another. *)
Lemma survivors_pairwise (items : list ref) (a b : ref) :
  a ∈ remove_useless_logs h items -> b ∈ remove_useless_logs h items -> a <> b ->
  dup h a b = false.
Proof.
  intros Ha Hb Hne. apply remove_useless_logs_elem in Ha as [Ha Hra].
  apply remove_useless_logs_elem in Hb as [Hb Hrb].
  destruct (dup h a b) eqn:Hdup; [|done].
  destruct (removed_one_of h items a b Ha Hb Hne Hdup); tauto.
Qed.

(** X5: an object is in the output exactly when it is in the input and at no
    position of the input is it a near-duplicate of an entry at an earlier
    position, whether that earlier entry is itself kept or dropped. *)
Theorem remove_useless_logs_survivors (items : list ref) (y : ref) :
  y ∈ remove_useless_logs h items <-> y ∈ items /\ ~ earlier_duplicate h items y.
Proof. by rewrite remove_useless_logs_elem, removed_earlier_duplicate. Qed.

(** X6: the output names no object twice, and no two different objects of it
    are near-duplicates of one another. *)
Theorem remove_useless_logs_no_near_duplicates (items : list ref) :
  NoDup (remove_useless_logs h items) /\
  forall a b, a ∈ remove_useless_logs h items -> b ∈ remove_useless_logs h items ->
              a <> b -> dup h a b = false.
Proof.
  split; [apply remove_useless_logs_NoDup|]. intros a b. apply survivors_pairwise.
Qed.

(** X7: a list of different objects none of which is a near-duplicate of
    another is kept whole, in some order; the empty list and a list of one
    object are returned as they are. *)
Theorem remove_useless_logs_keeps_unrelated (items : list ref) :
  (NoDup items ->
   (forall a b, a ∈ items -> b ∈ items -> a <> b -> dup h a b = false) ->
   remove_useless_logs h items ≡ₚ items) /\
  remove_useless_logs h [] = [] /\
  forall x, remove_useless_logs h [x] = [x].
Proof.
  assert (forall l, NoDup l ->
            (forall a b, a ∈ l -> b ∈ l -> a <> b -> dup h a b = false) ->
            remove_useless_logs h l ≡ₚ l) as Hkeep.
  { intros l Hnd Hpair. apply NoDup_Permutation; [apply remove_useless_logs_NoDup|done|].
    intros y. rewrite remove_useless_logs_elem. split; [tauto|]. intros Hy.
    split; [done|]. by apply removed_none. }
  split; [apply Hkeep|]. split.
  - apply Permutation_nil_r, Hkeep; [constructor|]. intros a b Ha. by apply elem_of_nil in Ha.
  - intros x. apply Permutation_singleton_r, Hkeep.
    + apply NoDup_singleton.
    + intros a b Ha Hb Hne. apply list_elem_of_singleton in Ha, Hb. congruence.
Qed.

(** X8: a record without a message, or whose lowered message has fewer than
    ten characters, is never dropped. *)
Theorem remove_useless_logs_keeps_short (items : list ref) (y : ref) :
  y ∈ items ->
  (forall s, message (h !!! y) = Some s -> (String.length (lower s) < 10)%nat) ->
  y ∈ remove_useless_logs h items.
Proof.
  intros Hy Hshort. apply remove_useless_logs_elem. split; [done|].
  assert (forall x, dup h x y = false) as Hno.
  { intros x. unfold dup. rewrite is_duplicate_sym.
    destruct (message (h !!! y)) as [s|] eqn:Hm; [|done].
    apply is_duplicate_short_false. by apply Hshort. }
  clear Hy. induction items as [|a later IH]; simpl; [tauto|].
  intros [[_ Hdup]|Hrem]; [by rewrite Hno in Hdup|tauto].
Qed.

(** X9: of three different objects of which the second is a near-duplicate
    of the first and the third of the second, only the first is kept: the
    third is dropped for the second, which is dropped itself, also when the
    third is no near-duplicate of the first. *)
Theorem remove_useless_logs_chain (a b c : ref) :
  a <> b -> a <> c ->
  dup h a b = true -> dup h b c = true ->
  remove_useless_logs h [a; b; c] = [a].
Proof.
  intros Hab Hac Hdab Hdbc. apply Permutation_singleton_r.
  apply NoDup_Permutation; [apply remove_useless_logs_NoDup|apply NoDup_singleton|].
  intros y. rewrite remove_useless_logs_elem, list_elem_of_singleton. simpl.
  rewrite !elem_of_cons, !elem_of_nil. split.
  - intros [[->|[->|[->|[]]]] Hrem]; [done| |]; exfalso; apply Hrem.
    + left. split; [by left|done].
    + right. left. split; [by left|done].
  - intros ->. split; [by left|].
    intros [[[?|[?|[]]] _]|[[[?|[]] _]|[[[] _]|[]]]]; congruence.
Qed.

End DeduplicatorMore.

Lemma remove_useless_logs_no_near_duplicates_witness :
  let e := Sample.env (Sample.pages []) Sample.always_ok in
  @remove_useless_logs e Sample.three_logs [0; 1; 2]%nat = [2; 0]%nat /\
  @dup e Sample.three_logs 2%nat 0%nat = false.
Proof.
  intros e.
  assert (@remove_useless_logs e Sample.three_logs [0; 1; 2]%nat = [2; 0]%nat) as Hout
    by (by vm_compute).
  split; [exact Hout|].
  apply (proj2 (@remove_useless_logs_no_near_duplicates e Sample.three_logs [0; 1; 2]%nat)).
  - rewrite Hout. by left.
  - rewrite Hout. by right; left.
  - discriminate.
Defined.

Lemma remove_useless_logs_keeps_unrelated_witness :
  let e := Sample.env (Sample.pages []) Sample.always_ok in
  @remove_useless_logs e Sample.three_logs [0; 2]%nat ≡ₚ [0; 2]%nat.
Proof.
  intros e.
  refine (proj1 (@remove_useless_logs_keeps_unrelated e Sample.three_logs [0; 2]%nat) _ _).
  - apply (bool_decide_unpack _). by vm_compute.
  - intros a b Ha Hb Hne.
    apply elem_of_cons in Ha as [->|Ha]; [|apply list_elem_of_singleton in Ha as ->];
      (apply elem_of_cons in Hb as [->|Hb]; [|apply list_elem_of_singleton in Hb as ->]);
      try done; by vm_compute.
Defined.

Lemma remove_useless_logs_keeps_short_witness :
  let e := Sample.env (Sample.pages []) Sample.always_ok in
  let h := [mkLog "search" "error" (Some "timeout") EmptyString 1672628645000000;
            mkLog "search" "error" (Some "timeout") EmptyString 1672628646000000] in
  1%nat ∈ @remove_useless_logs e h [0; 1]%nat.
Proof.
  intros e h. apply (@remove_useless_logs_keeps_short e h [0; 1]%nat 1%nat).
  - by right; left.
  - intros s [= <-]. vm_compute. lia.
Defined.

Lemma remove_useless_logs_chain_witness :
  let e := Sample.env (Sample.pages []) Sample.always_ok in
  let h := [mkLog "billing" "error" (Some "aaaaaaaaaa1111111111") EmptyString 1672628645000000;
            mkLog "billing" "error" (Some "aaaaaaaaaa2222222222") EmptyString 1672628646000000;
            mkLog "billing" "error" (Some "bbbbbbbbbb2222222222") EmptyString 1672628647000000] in
  @dup e h 0%nat 2%nat = false /\
  @remove_useless_logs e h [0; 1; 2]%nat = [0%nat].
Proof.
  intros e h. split; [by vm_compute|].
  apply (@remove_useless_logs_chain e h 0%nat 1%nat 2%nat); try done; by vm_compute.
Defined.

(** ** Sending a batch that is not empty *)

Section SendDataMore.
Context `{Env}.

Lemma send_log_request (self : SlackSender) (app_name : string) (log : ref) (w : world) :
  send_log self app_name log w =
  (urlopen_slack (upload_for self app_name (heap w !!! log));; mret tt) w.
Proof. reflexivity. Qed.

Lemma request_all_heap (requests : list event) : forall w r w',
  request_all requests w = Some (r, w') -> heap w' = heap w.
Proof.
  unfold request_all. induction requests as [|request requests IH]; intros w r w'; simpl.
  - by intros [= <- <-].
  - unfold mbind, M_bind, bind, urlopen_slack at 1, mret, M_ret, ret.
    destruct (slack_reply (slack_calls w)); [|by intros [= <- <-]].
    intros Hrest. by apply IH in Hrest.
Qed.

Lemma request_all_app (a b : list event) (w : world) :
  request_all (a ++ b) w = (request_all a;; request_all b) w.
Proof.
  unfold request_all. revert w. induction a as [|request a IH]; intros w; simpl; [done|].
  unfold mbind, M_bind, bind, urlopen_slack at 1 3, mret, M_ret, ret.
  destruct (slack_reply (slack_calls w)); [|done].
  rewrite IH. done.
Qed.

Lemma send_logs_requests (self : SlackSender) (app_name : string) (logs : list ref) :
  forall w,
    for_each logs (send_log self app_name) w =
    request_all (map (fun r => upload_for self app_name (heap w !!! r)) logs) w.
Proof.
  unfold request_all. induction logs as [|log logs IH]; intros w; simpl; [done|].
  unfold mbind, M_bind, bind. rewrite send_log_request.
  unfold mbind, M_bind, bind, urlopen_slack at 1 2, mret, M_ret, ret.
  destruct (slack_reply (slack_calls w)); [|done].
  by rewrite IH.
Qed.

(** [send_data] is the sequence of the uploads of the mapping. *)
Lemma send_data_requests (self : SlackSender) (items : dict) (w : world) :
  send_data self items w = request_all (uploads_of self (heap w) items) w.
Proof.
  unfold send_data. case_bool_decide as Hempty.
  { destruct items; [done|discriminate Hempty]. }
  clear Hempty. revert w. induction items as [|[app_name logs] items IH]; intros w.
  - done.
  - simpl. rewrite request_all_app. unfold mbind, M_bind, bind.
    rewrite send_logs_requests.
    destruct (request_all _ w) as [[[[]|e] w1]|] eqn:Hlogs; [|done|done].
    rewrite IH. by rewrite (request_all_heap _ _ _ _ Hlogs).
Qed.

Lemma request_all_answered (requests : list event) : forall w,
  (forall k, (k < length requests)%nat ->
     exists answer, slack_reply (slack_calls w + k) = Ok answer) ->
  request_all requests w = Some (Ok tt, requested w requests).
Proof.
  unfold request_all, requested.
  induction requests as [|request requests IH]; intros w Hok; simpl.
  - destruct w. simpl. by rewrite Nat.add_0_r, app_nil_r.
  - unfold mbind, M_bind, bind, urlopen_slack at 1, mret, M_ret, ret.
    destruct (Hok 0%nat) as [answer Hanswer]; [simpl; lia|].
    rewrite Nat.add_0_r in Hanswer. rewrite Hanswer.
    rewrite IH.
    + simpl. rewrite <- app_assoc. simpl. do 3 f_equal. lia.
    + intros k Hk. cbn [slack_calls].
      replace (S (slack_calls w) + k)%nat with (slack_calls w + S k)%nat by lia.
      apply Hok. simpl. lia.
Qed.

Lemma request_all_refused (requests : list event) : forall w k e,
  (k < length requests)%nat ->
  (forall j, (j < k)%nat -> exists answer, slack_reply (slack_calls w + j) = Ok answer) ->
  slack_reply (slack_calls w + k) = Raise e ->
  request_all requests w = Some (Raise e, requested w (take (S k) requests)).
Proof.
  unfold request_all, requested.
  induction requests as [|request requests IH]; intros w k e Hk Hok Hraise; simpl in Hk; [lia|].
  simpl. unfold mbind, M_bind, bind, urlopen_slack at 1, mret, M_ret, ret.
  destruct k as [|k].
  - rewrite Nat.add_0_r in Hraise. rewrite Hraise. simpl. rewrite take_0. simpl.
    do 3 f_equal. lia.
  - destruct (Hok 0%nat) as [answer Hanswer]; [lia|].
    rewrite Nat.add_0_r in Hanswer. rewrite Hanswer.
    rewrite (IH _ k e).
    + simpl. rewrite <- app_assoc. simpl. do 3 f_equal. lia.
    + lia.
    + intros j Hj. cbn [slack_calls].
      replace (S (slack_calls w) + j)%nat with (slack_calls w + S j)%nat by lia.
      apply Hok. lia.
    + cbn [slack_calls].
      by replace (S (slack_calls w) + k)%nat with (slack_calls w + S k)%nat by lia.
Qed.

Lemma uploads_of_length (self : SlackSender) (h : list Log) (items : dict) :
  length (uploads_of self h items) = length (concat (map snd items)).
Proof.
  unfold uploads_of. induction items as [|[app_name logs] items IH]; simpl; [done|].
  by rewrite !length_app, length_map, IH.
Qed.

Lemma send_data_answered (self : SlackSender) (items : dict) (w : world) :
  (forall k, (k < length (concat (map snd items)))%nat ->
     exists answer, slack_reply (slack_calls w + k) = Ok answer) ->
  send_data self items w = Some (Ok tt, requested w (uploads_of self (heap w) items)).
Proof.
  intros Hok. rewrite send_data_requests, request_all_answered; [done|].
  intros k Hk. apply Hok. by rewrite <- (uploads_of_length self (heap w)).
Qed.

Lemma send_data_refused (self : SlackSender) (items : dict) (w : world)
    (k : nat) (e : exn) :
  (k < length (concat (map snd items)))%nat ->
  (forall j, (j < k)%nat -> exists answer, slack_reply (slack_calls w + j) = Ok answer) ->
  slack_reply (slack_calls w + k) = Raise e ->
  send_data self items w =
  Some (Raise e, requested w (take (S k) (uploads_of self (heap w) items))).
Proof.
  intros Hk Hok Hraise. rewrite send_data_requests.
  by rewrite (request_all_refused _ w k e); [|by rewrite uploads_of_length|done|done].
Qed.

(** X10: when the chat service answers every request, [send_data] returns
    after one upload for each record of the mapping, application after
    application and the records of an application in the order of its list;
    it posts nothing and changes neither the heap nor the cursor. *)
Theorem send_data_uploads_every_record (self : SlackSender) (items : dict) (w : world) :
  (forall k, (k < length (concat (map snd items)))%nat ->
     exists answer, slack_reply (slack_calls w + k) = Ok answer) ->
  exists w',
    send_data self items w = Some (Ok tt, w') /\
    events w' = events w ++ uploads_of self (heap w) items /\
    slack_calls w' = (slack_calls w + length (concat (map snd items)))%nat /\
    heap w' = heap w /\ _last_update_time w' = _last_update_time w.
Proof.
  intros Hok. rewrite send_data_answered by done.
  eexists. split; [done|]. simpl. by rewrite uploads_of_length.
Qed.

(** X11: when the request for the [k]-th record is the first the chat
    service refuses, [send_data] raises that error after [k + 1] requests:
    the records before it are uploaded, those after it are not. *)
Theorem send_data_stops_at_refusal (self : SlackSender) (items : dict) (w : world)
    (k : nat) (e : exn) :
  (k < length (concat (map snd items)))%nat ->
  (forall j, (j < k)%nat -> exists answer, slack_reply (slack_calls w + j) = Ok answer) ->
  slack_reply (slack_calls w + k) = Raise e ->
  exists w',
    send_data self items w = Some (Raise e, w') /\
    events w' = events w ++ take (S k) (uploads_of self (heap w) items) /\
    slack_calls w' = (slack_calls w + S k)%nat /\
    heap w' = heap w /\ _last_update_time w' = _last_update_time w.
Proof.
  intros Hk Hok Hraise. rewrite (send_data_refused self items w k e) by done.
  eexists. split; [done|]. simpl. rewrite length_take, uploads_of_length.
  repeat split. lia.
Qed.

End SendDataMore.

Lemma send_data_uploads_every_record_witness :
  let e := Sample.env (Sample.pages []) Sample.always_ok in
  let w := World Sample.three_logs 0 0 0 0 [] in
  let items := [("billing", [0; 2]%nat)] in
  exists w',
    @send_data e Sample.sender items w = Some (Ok tt, w') /\
    events w' = events w ++ @uploads_of e Sample.sender (heap w) items /\
    slack_calls w' = 2%nat /\
    heap w' = heap w /\ _last_update_time w' = _last_update_time w.
Proof.
  intros e w items.
  apply (@send_data_uploads_every_record e Sample.sender items w).
  intros k Hk. by exists "ok".
Defined.

Lemma send_data_stops_at_refusal_witness :
  let e := Sample.env (Sample.pages []) (refuse_at 1) in
  let w := World Sample.three_logs 0 0 0 0 [] in
  let items := [("billing", [0; 1; 2]%nat)] in
  exists w',
    @send_data e Sample.sender items w
      = Some (Raise (Exception "URLError" "connection refused"), w') /\
    events w' = events w ++ take 2 (@uploads_of e Sample.sender (heap w) items) /\
    slack_calls w' = 2%nat /\
    heap w' = heap w /\ _last_update_time w' = _last_update_time w.
Proof.
  intros e w items.
  apply (@send_data_stops_at_refusal e Sample.sender items w 1%nat).
  - simpl. lia.
  - intros j Hj. exists "ok". by destruct j; [|lia].
  - reflexivity.
Defined.

(** ** The turns of the watcher *)

Section WatcherMore.
Context `{Env}.

Lemma send_error_outcome (self : SlackSender) (text : string) (w : world) :
  send_error self text w =
  Some (match slack_reply (slack_calls w) with
        | Ok _ => Ok tt
        | Raise e => Raise e
        end,
        World (heap w) (_last_update_time w) (clock_reads w) (searches w)
              (S (slack_calls w)) (events w ++ [error_post self text])).
Proof.
  unfold send_error, _send_msg, mbind, M_bind, bind, urlopen_slack, error_post.
  by destruct (slack_reply (slack_calls w)).
Qed.

Lemma searches_turn_events (evs : list event) :
  forallb is_search evs = true -> forallb turn_event evs = true.
Proof.
  induction evs as [|[] evs IH]; simpl; try done.
Qed.

Lemma uploads_turn_events (evs : list event) :
  forallb is_upload evs = true -> forallb turn_event evs = true.
Proof.
  induction evs as [|[] evs IH]; simpl; try done.
Qed.

(** How a turn ends. *)
Lemma iteration_ends (_sender : SlackSender) (fuel : nat) (w : world) (r : Res unit)
    (w' : world) :
  iteration _sender fuel w = Some (r, w') ->
  exists evs,
    forallb turn_event evs = true /\
    match r with
    | Ok _ => events w' = events w ++ evs ++ [EvSleep DELAY_SECONDS]
    | Raise e =>
        exists text, events w' = events w ++ evs ++ [error_post _sender text] /\
                     slack_reply (pred (slack_calls w')) = Raise e
    end.
Proof.
  unfold iteration, mbind, M_bind, bind, try_except.
  destruct (load fuel w) as [[[logs|e] w1]|] eqn:Hload; [| |done].
  - destruct (only_searched_load fuel w _ w1 Hload) as [_ (evs0 & Hevs0 & Hs0)].
    apply searches_turn_events in Hs0.
    destruct (send_data _sender logs w1) as [[[[]|e2] w2]|] eqn:Hsend; [| |done].
    + destruct (send_data_only_uploads _sender logs w1 _ w2 Hsend)
        as (_ & _ & _ & evs1 & Hevs1 & Hu1 & _).
      apply uploads_turn_events in Hu1.
      unfold sleep, emit. intros [= <- <-]. exists (evs0 ++ evs1).
      split; [by rewrite forallb_app, Hs0, Hu1|].
      simpl. by rewrite Hevs1, Hevs0, <- !app_assoc.
    + destruct (send_data_only_uploads _sender logs w1 _ w2 Hsend)
        as (_ & _ & _ & evs1 & Hevs1 & Hu1 & _).
      apply uploads_turn_events in Hu1.
      rewrite send_error_outcome.
      destruct (slack_reply (slack_calls w2)) as [answer|e3] eqn:Hreply.
      * unfold sleep, emit. intros [= <- <-].
        exists (evs0 ++ evs1 ++ [error_post _sender (send_error_text e2)]).
        split; [by rewrite !forallb_app, Hs0, Hu1|].
        simpl. by rewrite Hevs1, Hevs0, <- !app_assoc.
      * intros [= <- <-]. exists (evs0 ++ evs1).
        split; [by rewrite forallb_app, Hs0, Hu1|].
        exists (send_error_text e2). simpl. by rewrite Hevs1, Hevs0, <- !app_assoc.
  - destruct (only_searched_load fuel w _ w1 Hload) as [_ (evs0 & Hevs0 & Hs0)].
    apply searches_turn_events in Hs0.
    rewrite send_error_outcome.
    destruct (slack_reply (slack_calls w1)) as [answer|e3] eqn:Hreply.
    + unfold mret, M_ret, ret, send_data, sleep, emit. simpl. intros [= <- <-].
      exists (evs0 ++ [error_post _sender (load_error_text e)]).
      split; [by rewrite forallb_app, Hs0|].
      simpl. by rewrite Hevs0, <- !app_assoc.
    + intros [= <- <-]. exists evs0. split; [done|].
      exists (load_error_text e). simpl. by rewrite Hevs0, <- !app_assoc.
Qed.

(** X12: a turn in which [load] returns a mapping and the chat service
    answers every upload returns; past the searches of [load] its events are
    the uploads of the mapping and the sleep of 600 seconds, without any
    post, and the cursor is where [load] left it. *)
Theorem iteration_uploads_and_sleeps (_sender : SlackSender) (fuel : nat) (w w1 : world)
    (logs : dict) :
  load fuel w = Some (Ok logs, w1) ->
  (forall k, (k < length (concat (map snd logs)))%nat ->
     exists answer, slack_reply (slack_calls w1 + k) = Ok answer) ->
  exists w',
    iteration _sender fuel w = Some (Ok tt, w') /\
    events w' = events w1 ++ uploads_of _sender (heap w1) logs ++ [EvSleep DELAY_SECONDS] /\
    _last_update_time w' = _last_update_time w1.
Proof.
  intros Hload Hok.
  unfold iteration, mbind, M_bind, bind, try_except.
  rewrite Hload, (send_data_answered _sender logs w1 Hok).
  unfold sleep, emit. eexists. split; [done|]. simpl. by rewrite <- app_assoc.
Qed.


(** X14: a turn that returns ends with the sleep of 600 seconds, and a turn
    that raises ends with an alert that the chat service refused, whose error
    it raises: nothing else stops the watcher.  Before that the turn only
    searches, uploads and posts alerts. *)
Theorem iteration_ends_with_sleep_or_refused_alert (_sender : SlackSender) (fuel : nat)
    (w : world) (r : Res unit) (w' : world) :
  iteration _sender fuel w = Some (r, w') ->
  exists evs,
    forallb turn_event evs = true /\
    match r with
    | Ok _ => events w' = events w ++ evs ++ [EvSleep DELAY_SECONDS]
    | Raise e =>
        exists text, events w' = events w ++ evs ++ [error_post _sender text] /\
                     slack_reply (pred (slack_calls w')) = Raise e
    end.
Proof. apply iteration_ends. Qed.

(** X15: when the chat service refuses the first post, [watcher] raises that
    error before its loop: the post of the start is its only event and no
    search is made. *)
Theorem watcher_startup_refused (_sender : SlackSender) (fuel n : nat) (w : world)
    (e : exn) :
  slack_reply (slack_calls w) = Raise e ->
  watcher _sender fuel n w =
  Some (Raise e, World (heap w) (_last_update_time w) (clock_reads w) (searches w)
                       (S (slack_calls w))
                       (events w ++ [info_post _sender "i started to work"])).
Proof.
  intros Hraise.
  unfold watcher, send_info, _send_msg, mbind, M_bind, bind, urlopen_slack, info_post.
  by rewrite Hraise.
Qed.

Lemma turn_events_no_sleep_no_start (evs : list event) :
  forallb turn_event evs = true ->
  List.filter is_sleep evs = [] /\ List.filter is_info_post evs = [].
Proof.
  induction evs as [|[gt size|url a|url u|seconds] evs IH]; simpl; try done.
  unfold turn_event. simpl. intros [Htitle Hevs]%andb_prop.
  apply bool_decide_eq_true in Htitle. rewrite Htitle.
  rewrite bool_decide_eq_false_2 by done. by apply IH.
Qed.

Lemma iterations_events (_sender : SlackSender) (fuel n : nat) : forall w w',
  iterations _sender fuel n w = Some (Ok tt, w') ->
  exists evs, events w' = events w ++ evs /\
              length (List.filter is_sleep evs) = n /\
              List.filter is_info_post evs = [].
Proof.
  induction n as [|n IH]; intros w w'; simpl.
  - intros [= <-]. exists []. by rewrite app_nil_r.
  - unfold mbind, M_bind, bind.
    destruct (iteration _sender fuel w) as [[[[]|e] w1]|] eqn:Hturn; [|done|done].
    intros Hrest. destruct (iteration_ends _ _ _ _ _ Hturn) as (evs1 & Hturn_evs & Hevs1).
    destruct (turn_events_no_sleep_no_start evs1 Hturn_evs) as [Hs1 Hi1].
    destruct (IH w1 w' Hrest) as (evs2 & Hevs2 & Hs2 & Hi2).
    exists (evs1 ++ [EvSleep DELAY_SECONDS] ++ evs2).
    split; [by rewrite Hevs2, Hevs1, <- !app_assoc|].
    rewrite !List.filter_app, Hs1, Hi1, Hi2. simpl. by rewrite Hs2.
Qed.

(** X16: when [watcher] has made [n] turns that all returned, its events are
    the post of the start, once and first, and then events among which are
    exactly [n] sleeps. *)
Theorem watcher_posts_start_once (_sender : SlackSender) (fuel n : nat) (w w' : world) :
  watcher _sender fuel n w = Some (Ok tt, w') ->
  exists evs,
    events w' = events w ++ info_post _sender "i started to work" :: evs /\
    length (List.filter is_sleep evs) = n /\
    List.filter is_info_post evs = [].
Proof.
  unfold watcher, send_info, _send_msg, mbind, M_bind, bind, urlopen_slack at 1,
    mret, M_ret, ret.
  destruct (slack_reply (slack_calls w)) as [answer|e]; [|done].
  intros Hturns. apply iterations_events in Hturns as (evs & Hevs & Hs & Hi).
  exists evs. split; [|done]. simpl in Hevs. by rewrite Hevs, <- app_assoc.
Qed.

End WatcherMore.

Lemma iteration_uploads_and_sleeps_witness :
  let e := Sample.env (Sample.pages [[Sample.hit_a1; Sample.hit_a2]; [Sample.hit_b]])
                      Sample.always_ok in
  exists logs w1 w',
    @load e 3 Sample.start = Some (Ok logs, w1) /\
    @iteration e Sample.sender 3 Sample.start = Some (Ok tt, w') /\
    events w' = events w1 ++ @uploads_of e Sample.sender (heap w1) logs
                  ++ [EvSleep DELAY_SECONDS] /\
    _last_update_time w' = _last_update_time w1.
Proof.
  intros e.
  destruct (@load e 3 Sample.start) as [[[logs|err] w1]|] eqn:Hload;
    [|vm_compute in Hload; discriminate Hload..].
  destruct (@iteration_uploads_and_sleeps e Sample.sender 3 Sample.start w1 logs Hload)
    as (w' & Hturn & Hevs & Hcursor).
  { intros k _. exists "ok". reflexivity. }
  exists logs, w1, w'. split; [reflexivity|]. split; [exact Hturn|].
  split; [exact Hevs|exact Hcursor].
Defined.


Lemma iteration_ends_with_sleep_or_refused_alert_witness :
  let e := Sample.env Sample.search_down Sample.slack_down in
  exists w' evs text,
    @iteration e Sample.sender 3 Sample.start
      = Some (Raise (Exception "URLError" "connection refused"), w') /\
    forallb turn_event evs = true /\
    events w' = events Sample.start ++ evs ++ [error_post Sample.sender text] /\
    @slack_reply e (pred (slack_calls w')) = Raise (Exception "URLError" "connection refused").
Proof.
  intros e.
  destruct (@iteration e Sample.sender 3 Sample.start) as [[r w']|] eqn:Hturn;
    [|vm_compute in Hturn; discriminate Hturn].
  destruct (@iteration_ends_with_sleep_or_refused_alert e Sample.sender 3 Sample.start r w'
              Hturn) as (evs & Hevs & Hend).
  vm_compute in Hturn. injection Hturn as <- <-.
  destruct Hend as (text & Hlast & Hreply).
  eexists _, evs, text. split; [reflexivity|]. split; [exact Hevs|].
  split; [exact Hlast|exact Hreply].
Defined.

Lemma watcher_startup_refused_witness :
  let e := Sample.env (Sample.pages [[Sample.hit_b]]) Sample.slack_down in
  exists w',
    @watcher e Sample.sender 3 5 Sample.start
      = Some (Raise (Exception "URLError" "connection refused"), w') /\
    searches w' = 0%nat /\
    events w' = [info_post Sample.sender "i started to work"].
Proof.
  intros e. eexists. split; [|split].
  - apply (@watcher_startup_refused e Sample.sender 3 5 Sample.start). reflexivity.
  - reflexivity.
  - reflexivity.
Defined.

Lemma watcher_posts_start_once_witness :
  let e := Sample.env (Sample.pages [[Sample.hit_a1; Sample.hit_a2]; [Sample.hit_b]])
                      Sample.always_ok in
  exists w' evs,
    @watcher e Sample.sender 3 2 Sample.start = Some (Ok tt, w') /\
    events w' = events Sample.start ++ info_post Sample.sender "i started to work" :: evs /\
    length (List.filter is_sleep evs) = 2%nat /\
    List.filter is_info_post evs = [].
Proof.
  intros e.
  destruct (@watcher e Sample.sender 3 2 Sample.start) as [[[[]|err] w']|] eqn:Hrun;
    [|vm_compute in Hrun; discriminate Hrun..].
  destruct (@watcher_posts_start_once e Sample.sender 3 2 Sample.start w' Hrun)
    as (evs & Hevs & Hs & Hi).
  exists w', evs. split; [reflexivity|]. split; [exact Hevs|]. split; [exact Hs|exact Hi].
Defined.

(** ** More on sending: whatever the chat service does *)

Section SendDataAlways.
Context `{Env}.

Lemma request_all_prefix (requests : list event) : forall w,
  exists r n,
    (n <= length requests)%nat /\
    request_all requests w = Some (r, requested w (take n requests)) /\
    match r with
    | Ok _ => n = length requests
    | Raise e => (0 < n)%nat /\ slack_reply (slack_calls w + (n - 1)) = Raise e
    end.
Proof.
  unfold request_all, requested.
  induction requests as [|request requests IH]; intros w; simpl.
  - exists (Ok tt), 0%nat. split; [done|]. split; [|done].
    destruct w. simpl. by rewrite Nat.add_0_r, app_nil_r.
  - unfold mbind, M_bind, bind, urlopen_slack at 1, mret, M_ret, ret.
    destruct (slack_reply (slack_calls w)) as [answer|e] eqn:Hreply; cbv beta iota.
    + destruct (IH (World (heap w) (_last_update_time w) (clock_reads w) (searches w)
                          (S (slack_calls w)) (events w ++ [request])))
        as (r & n & Hn & Hrun & Hr).
      exists r, (S n). split; [lia|]. split.
      * etrans; [exact Hrun|]. simpl. rewrite <- app_assoc. simpl. do 3 f_equal. lia.
      * destruct r as [[]|e]; [lia|]. destruct Hr as [Hpos Hraise]. split; [lia|].
        cbn [slack_calls] in Hraise.
        by replace (slack_calls w + (S n - 1))%nat with (S (slack_calls w) + (n - 1))%nat
          by lia.
    + exists (Raise e), 1%nat. split; [lia|]. split.
      * simpl. rewrite take_0. do 3 f_equal. lia.
      * split; [lia|]. by rewrite Nat.add_0_r.
Qed.

(** X17: whatever the chat service answers, [send_data] ends, after the
    uploads of the first [n] records of the mapping in order and nothing
    else: of all of them when it returns, and up to the one whose request
    was refused when it raises, with the error of that refusal. *)
Theorem send_data_uploads_a_prefix (self : SlackSender) (items : dict) (w : world) :
  exists r n,
    (n <= length (concat (map snd items)))%nat /\
    send_data self items w
      = Some (r, requested w (take n (uploads_of self (heap w) items))) /\
    match r with
    | Ok _ => n = length (concat (map snd items))
    | Raise e => (0 < n)%nat /\ slack_reply (slack_calls w + (n - 1)) = Raise e
    end.
Proof.
  rewrite send_data_requests, <- (uploads_of_length self (heap w)).
  apply request_all_prefix.
Qed.

End SendDataAlways.

(** ** More on the poll cycle *)

Lemma latest_le (ls : list Log) : forall c,
  c <= latest c ls /\ forall l, l ∈ ls -> date l <= latest c ls.
Proof.
  unfold latest. induction ls as [|a ls IH]; intros c; simpl.
  - split; [lia|]. intros l Hl. by apply elem_of_nil in Hl.
  - destruct (IH (Z.max c (date a))) as [Hc Hl]. split; [lia|].
    intros l [->|Hin]%elem_of_cons; [lia|by apply Hl].
Qed.

Lemma latest_is (ls : list Log) : forall c,
  latest c ls = c \/ exists l, l ∈ ls /\ latest c ls = date l.
Proof.
  unfold latest. induction ls as [|a ls IH]; intros c; simpl; [by left|].
  destruct (IH (Z.max c (date a))) as [Heq|(l & Hl & Heq)].
  - rewrite Heq. destruct (Z.max_spec c (date a)) as [[_ ->]|[_ ->]].
    + right. exists a. split; [by left|done].
    + by left.
  - right. exists l. split; [by right|done].
Qed.

Lemma latest_app (c : datetime) (a b : list Log) :
  latest c (a ++ b) = latest (latest c a) b.
Proof. apply foldl_app. Qed.

(** The dates read through the references of the objects just built are the
    dates of these objects. *)
Lemma latest_seq (new : list Log) : forall (h : list Log) (c : datetime),
  foldl (fun c r => Z.max c (date ((h ++ new) !!! r))) c (seq (length h) (length new))
  = latest c new.
Proof.
  induction new as [|a new IH]; intros h c; simpl; [done|].
  rewrite list_lookup_total_middle by done.
  replace (h ++ a :: new) with ((h ++ [a]) ++ new) by (by rewrite <- app_assoc).
  replace (S (length h)) with (length (h ++ [a])) by (rewrite length_app; simpl; lia).
  apply IH.
Qed.

(** The keys of the dictionary stay different from one another. *)
Lemma get_append_setdefault_keys (d : dict) (k : string) (x : ref) : forall d',
  get_append (setdefault d k []) k x = Ok d' ->
  map fst d' = map fst d \/ ((k ∉ map fst d) /\ map fst d' = map fst d ++ [k]).
Proof.
  induction d as [|[k0 l0] d IH]; intros d'; simpl.
  - rewrite bool_decide_eq_true_2 by done. intros [= <-]. right.
    split; [apply not_elem_of_nil|done].
  - destruct (decide (k0 = k)) as [->|Hne].
    + rewrite bool_decide_eq_true_2 by done. simpl.
      rewrite bool_decide_eq_true_2 by done. intros [= <-]. by left.
    + rewrite bool_decide_eq_false_2 by done. simpl.
      rewrite bool_decide_eq_false_2 by done.
      destruct (get_append (setdefault d k []) k x) as [d''|e]; [|done].
      intros [= <-]. simpl. destruct (IH d'' eq_refl) as [->|[Hnot ->]]; [by left|].
      right. split; [|done]. intros [->|Hin]%elem_of_cons; [done|by apply Hnot].
Qed.

Section PollCycleMore.
Context `{Env}.

Lemma add_log_keys (result : dict) (log : ref) (w : world) (result' : dict) (w' : world) :
  add_log result log w = Some (Ok result', w') ->
  NoDup (map fst result) -> NoDup (map fst result').
Proof.
  unfold add_log, mbind, M_bind, bind, attributes, lift, get_last_update_time,
    set_last_update_time, mret, M_ret, ret.
  destruct (get_append _ _ _) as [d'|e] eqn:Happend; [|done].
  intros [= <- <-] Hkeys.
  destruct (get_append_setdefault_keys _ _ _ _ Happend) as [->|[Hnot ->]]; [done|].
  apply NoDup_app. split; [done|]. split; [|apply NoDup_singleton].
  intros k Hk ->%list_elem_of_singleton. by apply Hnot.
Qed.

Lemma add_logs_state (logs : list ref) : forall (result : dict) (w : world),
  exists result' w',
    add_logs result logs w = Some (Ok result', w') /\
    _last_update_time w' =
      foldl (fun c r => Z.max c (date (heap w !!! r))) (_last_update_time w) logs /\
    (NoDup (map fst result) -> NoDup (map fst result')).
Proof.
  induction logs as [|log logs IH]; intros result w; simpl.
  - by exists result, w.
  - unfold mbind, M_bind, bind.
    destruct (add_log_cursor result log w)
      as (result1 & w1 & Hstep & Hcursor1 & Hheap1 & _).
    rewrite Hstep.
    destruct (IH result1 w1) as (result' & w' & -> & Hcursor & Hkeys).
    exists result', w'. split; [done|]. split.
    + by rewrite Hcursor, Hheap1, Hcursor1.
    + intros Hnd. apply Hkeys. by eapply add_log_keys.
Qed.

(** The loop after [n] pages that are not empty: it goes on with the fuel
    that is left, the objects of these pages on the heap and under their
    applications, and the cursor at the latest of their dates. *)
Lemma load_loop_pages (n : nat) : forall (fuel : nat) (result : dict) (w : world),
  (forall k, (k < n)%nat ->
     exists page, search_reply (searches w + k) = Ok page /\ page <> [] /\
                 forallb has_keys page = true) ->
  exists result' w' new,
    load_loop (n + fuel) result w = load_loop fuel result' w' /\
    searches w' = (searches w + n)%nat /\
    heap w' = heap w ++ new /\
    Forall2 built_from (fetched (searches w) n) new /\
    _last_update_time w' = latest (_last_update_time w) new /\
    (NoDup (map fst result) -> NoDup (map fst result')) /\
    forall k, dict_get result' k =
      grouped (dict_get result k)
        (filter (fun r => application (heap w' !!! r) = k)
                (seq (length (heap w)) (length new))).
Proof.
  induction n as [|n IH]; intros fuel result w Hpages.
  - exists result, w, []. simpl. rewrite app_nil_r, Nat.add_0_r. by repeat split.
  - simpl. unfold mbind, M_bind, bind, _load_json at 1.
    destruct (Hpages 0%nat) as (page & Hpage & Hne & Hfull); [lia|].
    rewrite Nat.add_0_r in Hpage. rewrite Hpage.
    rewrite bool_decide_eq_false_2 by (by destruct page).
    set (w0 := World _ _ _ _ _ _).
    destruct (parse_returns page w0 Hfull)
      as (w1 & new1 & -> & Hheap1 & Hbuilt1 & Hc1 & Hs1 & Hk1 & He1).
    destruct (add_logs_returns (seq (length (heap w0)) (length page)) result w1)
      as (result1 & w2 & Hadd & Hheap2 & Hs2 & Hk2 & Hget2).
    destruct (add_logs_state (seq (length (heap w0)) (length page)) result w1)
      as (result1' & w2' & Hadd' & Hcursor2 & Hkeys2).
    rewrite Hadd in Hadd'. injection Hadd' as <- <-. rewrite Hadd.
    destruct (IH fuel result1 w2)
      as (result' & w' & new2 & -> & Hs & Hheap & Hbuilt & Hcursor & Hkeys & Hget).
    { intros k Hk. rewrite Hs2, Hs1. unfold w0. cbn [searches].
      replace (S (searches w) + k)%nat with (searches w + S k)%nat by lia.
      apply Hpages. lia. }
    exists result', w', (new1 ++ new2).
    assert (length new1 = length page) as Hlen by (symmetry; by eapply Forall2_length).
    split; [done|]. split; [rewrite Hs, Hs2, Hs1; simpl; lia|].
    split; [rewrite Hheap, Hheap2, Hheap1; simpl; by rewrite <- app_assoc|].
    split.
    { unfold page_at at 1. rewrite Hpage. apply Forall2_app; [done|].
      by rewrite Hs2, Hs1 in Hbuilt. }
    split.
    { rewrite Hcursor, Hcursor2, Hc1, latest_app. f_equal.
      rewrite Hheap1, <- Hlen. unfold w0. cbn [heap _last_update_time].
      apply latest_seq. }
    split; [tauto|].
    intros k. rewrite Hget, Hget2, grouped_app. f_equal.
    rewrite length_app, seq_app, filter_app. f_equal.
    + rewrite Hheap, Hheap2, Hlen. simpl.
      rewrite filter_application_grown; [done|]. rewrite Hheap1, length_app. simpl. lia.
    + rewrite Hheap2, Hheap1, length_app, Hlen. done.
Qed.

Lemma dict_get_elem (d : dict) (k : string) (l : list ref) :
  NoDup (map fst d) -> (k, l) ∈ d -> dict_get d k = Some l.
Proof.
  induction d as [|[k0 l0] d IH]; simpl; intros Hnd Hin; [by apply elem_of_nil in Hin|].
  apply NoDup_cons in Hnd as [Hk0 Hnd]. apply elem_of_cons in Hin as [[= -> ->]|Hin].
  - by rewrite bool_decide_eq_true_2.
  - rewrite bool_decide_eq_false_2; [by apply IH|]. intros ->. apply Hk0.
    apply list_elem_of_In, in_map_iff. exists (k, l). split; [done|by apply list_elem_of_In].
Qed.

Lemma dedup_values_keys (h : list Log) (d : dict) :
  map fst (dedup_values h d) = map fst d.
Proof.
  unfold dedup_values. induction d as [|[k l] d IH]; simpl; [done|]. by rewrite IH.
Qed.

Lemma dedup_values_elem (h : list Log) (d : dict) (k : string) (l : list ref) :
  (k, l) ∈ dedup_values h d ->
  exists l0, (k, l0) ∈ d /\ l = remove_useless_logs h l0.
Proof.
  unfold dedup_values. intros Hin. apply list_elem_of_In, in_map_iff in Hin.
  destruct Hin as ([k0 l0] & [= -> <-] & Hin). exists l0. split; [|done].
  by apply list_elem_of_In.
Qed.

(** A cycle that reaches the empty page: what it returns and the state it
    leaves. *)
Lemma load_returns_state (n fuel : nat) (w : world) :
  (n < fuel)%nat ->
  (forall k, (k < n)%nat ->
     exists page, search_reply (searches w + k) = Ok page /\ page <> [] /\
                 forallb has_keys page = true) ->
  search_reply (searches w + n) = Ok [] ->
  exists result' w' new,
    load fuel w = Some (Ok (dedup_values (heap w') result'), w') /\
    searches w' = S (searches w + n) /\
    heap w' = heap w ++ new /\
    Forall2 built_from (fetched (searches w) n) new /\
    _last_update_time w' = latest (_last_update_time w) new /\
    NoDup (map fst result') /\
    forall k, dict_get result' k =
      grouped None (filter (fun r => application (heap w' !!! r) = k)
                           (seq (length (heap w)) (length new))).
Proof.
  intros Hfuel Hpages Hlast.
  destruct (load_loop_pages n (S (fuel - n - 1)) [] w Hpages)
    as (result' & w' & new & Hloop & Hs & Hheap & Hbuilt & Hcursor & Hkeys & Hget).
  replace (n + S (fuel - n - 1))%nat with fuel in Hloop by lia.
  unfold load, mbind, M_bind, bind. rewrite Hloop. simpl.
  rewrite <- Hs in Hlast. unfold mbind, M_bind, bind, _load_json. rewrite Hlast. simpl.
  unfold mret, M_ret, ret, get_heap. simpl.
  exists result',
    (World (heap w') (_last_update_time w') (clock_reads w') (S (searches w'))
           (slack_calls w') (events w' ++ [EvSearch (_last_update_time w') 100])),
    new.
  split; [reflexivity|]. simpl.
  repeat split; try done; [lia|]. apply Hkeys. constructor.
Qed.

(** X18: [_parse] on hits that all have the keys ['_source'],
    ['application'], ['severity'] and ['@timestamp'] builds one object for
    each hit, in the order of the hits, at the end of the heap, and returns
    their references; a hit without message gets the empty message, a hit
    whose stack trace is absent or null the empty stack trace.  At the first
    hit that lacks one of these keys it raises [KeyError] for the first key
    that is missing, in the order of the reads, after it built the objects of
    the hits before that one.  Either way the cursor, the counters of the two
    services and the events are as they were. *)
Theorem parse_builds_an_object_per_hit (data : list hit) (w : world) :
  (forallb has_keys data = true ->
   exists w' new,
     _parse data w = Some (Ok (seq (length (heap w)) (length data)), w') /\
     heap w' = heap w ++ new /\
     Forall2 built_from data new /\
     _last_update_time w' = _last_update_time w /\ searches w' = searches w /\
     slack_calls w' = slack_calls w /\ events w' = events w) /\
  (forall good bad rest key,
     data = good ++ bad :: rest ->
     forallb has_keys good = true -> missing_key bad = Some key ->
     exists w' new,
       _parse data w = Some (Raise (KeyError key), w') /\
       heap w' = heap w ++ new /\
       Forall2 built_from good new /\
       _last_update_time w' = _last_update_time w /\ searches w' = searches w /\
       slack_calls w' = slack_calls w /\ events w' = events w).
Proof.
  split.
  - apply parse_returns.
  - intros good bad rest key -> Hgood Hbad. by apply parse_raises.
Qed.

(** X19: when the search after [n] pages that are not empty, of hits that
    have their keys, fails, [load] raises that error: the mapping with the records of these pages is lost,
    while their objects are on the heap and the cursor is at the latest of
    their dates, so that the next cycle does not ask for them again. *)
Theorem load_fetch_failure_keeps_cursor (n fuel : nat) (w : world) (e : exn) :
  (n < fuel)%nat ->
  (forall k, (k < n)%nat ->
     exists page, search_reply (searches w + k) = Ok page /\ page <> [] /\
                 forallb has_keys page = true) ->
  search_reply (searches w + n) = Raise e ->
  exists w' new,
    load fuel w = Some (Raise e, w') /\
    searches w' = S (searches w + n) /\
    heap w' = heap w ++ new /\
    Forall2 built_from (fetched (searches w) n) new /\
    _last_update_time w' = latest (_last_update_time w) new.
Proof.
  intros Hfuel Hpages Hlast.
  destruct (load_loop_pages n (S (fuel - n - 1)) [] w Hpages)
    as (result' & w' & new & Hloop & Hs & Hheap & Hbuilt & Hcursor & _).
  replace (n + S (fuel - n - 1))%nat with fuel in Hloop by lia.
  unfold load, mbind, M_bind, bind. rewrite Hloop. simpl.
  unfold mbind, M_bind, bind, _load_json. rewrite Hs, Hlast.
  eexists _, new. split; [reflexivity|]. simpl. repeat split; try done; lia.
Qed.

(** X20: after a cycle that returns, which it does after pages of hits
    that have their keys and an empty page, the cursor is the latest of its
    value before and the dates of the objects built: none of them is later than the
    cursor, and the cursor is its old value or the date of one of them. *)
Theorem load_cursor_is_latest (n fuel : nat) (w : world) :
  (n < fuel)%nat ->
  (forall k, (k < n)%nat ->
     exists page, search_reply (searches w + k) = Ok page /\ page <> [] /\
                 forallb has_keys page = true) ->
  search_reply (searches w + n) = Ok [] ->
  exists result w' new,
    load fuel w = Some (Ok result, w') /\
    heap w' = heap w ++ new /\
    _last_update_time w' = latest (_last_update_time w) new /\
    (forall l, l ∈ new -> date l <= _last_update_time w') /\
    (_last_update_time w' = _last_update_time w \/
     exists l, l ∈ new /\ _last_update_time w' = date l).
Proof.
  intros Hfuel Hpages Hlast.
  destruct (load_returns_state n fuel w Hfuel Hpages Hlast)
    as (result' & w' & new & Hload & _ & Hheap & _ & Hcursor & _).
  eexists _, w', new. split; [exact Hload|]. split; [done|]. split; [done|].
  rewrite Hcursor. split; [apply latest_le|apply latest_is].
Qed.

(** X21: when every search is answered with a page that is not empty, of
    hits that have their keys, [load] neither returns nor raises, however many turns of its loop are allowed:
    the loop has no bound of its own. *)
Theorem load_never_returns (w : world) :
  (forall k, exists page, search_reply (searches w + k) = Ok page /\ page <> [] /\
                          forallb has_keys page = true) ->
  forall fuel, load fuel w = None.
Proof.
  intros Hpages fuel.
  destruct (load_loop_pages fuel 0 [] w) as (result' & w' & new & Hloop & _).
  { intros k _. apply Hpages. }
  rewrite Nat.add_0_r in Hloop.
  unfold load, mbind, M_bind, bind. by rewrite Hloop.
Qed.

(** X22: in the mapping a cycle returns, which it does after pages of hits
    that have their keys and an empty page, the keys are different from one
    another, and under each key stands a list that is not empty, names no
    object twice and holds only objects built in this cycle whose
    application is the key. *)
Theorem load_result_well_formed (n fuel : nat) (w : world) :
  (n < fuel)%nat ->
  (forall k, (k < n)%nat ->
     exists page, search_reply (searches w + k) = Ok page /\ page <> [] /\
                 forallb has_keys page = true) ->
  search_reply (searches w + n) = Ok [] ->
  exists result w',
    load fuel w = Some (Ok result, w') /\
    NoDup (map fst result) /\
    forall k l, (k, l) ∈ result ->
      l <> [] /\ NoDup l /\
      forall r, r ∈ l ->
        (length (heap w) <= r < length (heap w'))%nat /\ application (heap w' !!! r) = k.
Proof.
  intros Hfuel Hpages Hlast.
  destruct (load_returns_state n fuel w Hfuel Hpages Hlast)
    as (result' & w' & new & Hload & _ & Hheap & _ & _ & Hkeys & Hget).
  eexists _, w'. split; [exact Hload|]. split; [by rewrite dedup_values_keys|].
  intros k l Hin. apply dedup_values_elem in Hin as (l0 & Hin & ->).
  apply (dict_get_elem _ _ _ Hkeys) in Hin. rewrite Hget in Hin.
  unfold grouped in Hin.
  destruct (filter _ (seq _ _)) as [|x later] eqn:Hfilter; [done|]. injection Hin as <-.
  assert (NoDup (x :: later)) as Hnd by (rewrite <- Hfilter; apply filter_seq_NoDup).
  split; [|split].
  - apply NoDup_cons in Hnd as [Hx _].
    assert (x ∈ remove_useless_logs (heap w') (x :: later)) as Hsurvives.
    { apply remove_useless_logs_elem. split; [by left|by apply head_not_removed]. }
    intros Hnil. rewrite Hnil in Hsurvives. by apply elem_of_nil in Hsurvives.
  - apply remove_useless_logs_NoDup.
  - intros r Hr. apply remove_useless_logs_elem in Hr as [Hr _].
    rewrite <- Hfilter in Hr. apply list_elem_of_filter in Hr as [HP Hr].
    apply elem_of_seq in Hr. split; [|exact HP]. rewrite Hheap, length_app. lia.
Qed.

(** X23: [load] never talks to the chat service: whether it returns or
    raises, the events it adds are searches only. *)
Theorem load_only_searches (fuel : nat) (w : world) (r : Res dict) (w' : world) :
  load fuel w = Some (r, w') ->
  slack_calls w' = slack_calls w /\
  exists evs, events w' = events w ++ evs /\ forallb is_search evs = true.
Proof. apply only_searched_load. Qed.

(** X25: when, after [n] pages that are not empty, of hits that have their
    keys, a page holds a hit that lacks a key, [load] raises [KeyError] for
    the first key that the first such hit lacks, and returns no mapping.  The
    objects of the [n] pages and of the hits before that one are on the heap;
    the cursor is at the latest of the dates of the [n] pages only. *)
Theorem load_missing_key_raises (n fuel : nat) (w : world)
    (good : list hit) (bad : hit) (rest : list hit) (key : string) :
  (n < fuel)%nat ->
  (forall k, (k < n)%nat ->
     exists page, search_reply (searches w + k) = Ok page /\ page <> [] /\
                 forallb has_keys page = true) ->
  search_reply (searches w + n) = Ok (good ++ bad :: rest) ->
  forallb has_keys good = true -> missing_key bad = Some key ->
  exists w' new new',
    load fuel w = Some (Raise (KeyError key), w') /\
    searches w' = S (searches w + n) /\
    heap w' = heap w ++ new ++ new' /\
    Forall2 built_from (fetched (searches w) n) new /\
    Forall2 built_from good new' /\
    _last_update_time w' = latest (_last_update_time w) new.
Proof.
  intros Hfuel Hpages Hlast Hgood Hbad.
  destruct (load_loop_pages n (S (fuel - n - 1)) [] w Hpages)
    as (result' & w' & new & Hloop & Hs & Hheap & Hbuilt & Hcursor & _).
  replace (n + S (fuel - n - 1))%nat with fuel in Hloop by lia.
  unfold load, mbind, M_bind, bind. rewrite Hloop.
  cbn [load_loop]. unfold mbind, M_bind, bind, _load_json. rewrite Hs, Hlast.
  rewrite bool_decide_eq_false_2 by (rewrite length_app; simpl; lia).
  set (w0 := World _ _ _ _ _ _).
  destruct (parse_raises good bad rest key w0 Hgood Hbad)
    as (w1 & new' & -> & Hheap1 & Hbuilt1 & Hc1 & Hs1 & Hk1 & He1).
  exists w1, new, new'. split; [reflexivity|].
  split; [rewrite Hs1; unfold w0; cbn [searches]; lia|].
  split; [rewrite Hheap1; unfold w0; cbn [heap]; by rewrite Hheap, <- app_assoc|].
  split; [done|]. split; [done|].
  rewrite Hc1. unfold w0. cbn [_last_update_time]. done.
Qed.

End PollCycleMore.

Lemma parse_builds_an_object_per_hit_witness :
  let e := Sample.env (Sample.pages []) Sample.always_ok in
  (exists w' new,
     @_parse e [Sample.hit_a1; Sample.hit_b] Sample.start = Some (Ok [0; 1]%nat, w') /\
     heap w' = heap Sample.start ++ new /\
     Forall2 built_from [Sample.hit_a1; Sample.hit_b] new /\
     _last_update_time w' = _last_update_time Sample.start /\
     searches w' = searches Sample.start /\
     slack_calls w' = slack_calls Sample.start /\ events w' = events Sample.start) /\
  (exists w' new,
     @_parse e [Sample.hit_a1; Sample.hit_no_severity; Sample.hit_b] Sample.start =
       Some (Raise (KeyError "severity"), w') /\
     heap w' = heap Sample.start ++ new /\
     Forall2 built_from [Sample.hit_a1] new /\
     _last_update_time w' = _last_update_time Sample.start /\
     searches w' = searches Sample.start /\
     slack_calls w' = slack_calls Sample.start /\ events w' = events Sample.start).
Proof.
  intros e. split.
  - exact (proj1 (@parse_builds_an_object_per_hit e [Sample.hit_a1; Sample.hit_b] Sample.start)
                 eq_refl).
  - exact (proj2 (@parse_builds_an_object_per_hit e
                    [Sample.hit_a1; Sample.hit_no_severity; Sample.hit_b] Sample.start)
                 [Sample.hit_a1] Sample.hit_no_severity [Sample.hit_b] "severity"
                 eq_refl eq_refl eq_refl).
Defined.

Lemma load_missing_key_raises_witness :
  let e := Sample.env (Sample.pages [[Sample.hit_a1; Sample.hit_a2];
                                     [Sample.hit_b; Sample.hit_no_application]])
                      Sample.always_ok in
  exists w' new new',
    @load e 3 Sample.start = Some (Raise (KeyError "application"), w') /\
    searches w' = 2%nat /\
    heap w' = heap Sample.start ++ new ++ new' /\
    Forall2 built_from (@fetched e 0 1) new /\
    Forall2 built_from [Sample.hit_b] new' /\
    _last_update_time w' = latest (_last_update_time Sample.start) new.
Proof.
  intros e.
  refine (@load_missing_key_raises e 1 3 Sample.start [Sample.hit_b]
            Sample.hit_no_application [] "application" _ _ _ _ _).
  - lia.
  - intros k Hk. destruct k as [|k]; [|lia].
    exists [Sample.hit_a1; Sample.hit_a2]. split; [reflexivity|split; [discriminate|reflexivity]].
  - reflexivity.
  - reflexivity.
  - reflexivity.
Defined.

Lemma load_fetch_failure_keeps_cursor_witness :
  let e := Sample.env (pages_then_down [[Sample.hit_a1; Sample.hit_a2]]) Sample.always_ok in
  exists w' new,
    @load e 3 Sample.start = Some (Raise (Exception "URLError" "connection refused"), w') /\
    searches w' = 2%nat /\
    heap w' = heap Sample.start ++ new /\
    Forall2 built_from (@fetched e 0 1) new /\
    _last_update_time w' = latest (_last_update_time Sample.start) new.
Proof.
  intros e.
  refine (@load_fetch_failure_keeps_cursor e 1 3 Sample.start _ _ _ _).
  - lia.
  - intros k Hk. destruct k as [|k]; [|lia].
    exists [Sample.hit_a1; Sample.hit_a2]. split; [reflexivity|split; [discriminate|reflexivity]].
  - reflexivity.
Defined.

Lemma load_cursor_is_latest_witness :
  let e := Sample.env (Sample.pages [[Sample.hit_a1; Sample.hit_a2]; [Sample.hit_b]])
                      Sample.always_ok in
  exists result w' new,
    @load e 3 Sample.start = Some (Ok result, w') /\
    heap w' = heap Sample.start ++ new /\
    _last_update_time w' = latest (_last_update_time Sample.start) new /\
    (forall l, l ∈ new -> date l <= _last_update_time w') /\
    (_last_update_time w' = _last_update_time Sample.start \/
     exists l, l ∈ new /\ _last_update_time w' = date l).
Proof.
  intros e.
  refine (@load_cursor_is_latest e 2 3 Sample.start _ _ _).
  - lia.
  - intros k Hk. destruct k as [|[|k]]; [| |lia].
    + exists [Sample.hit_a1; Sample.hit_a2]. split; [reflexivity|split; [discriminate|reflexivity]].
    + exists [Sample.hit_b]. split; [reflexivity|split; [discriminate|reflexivity]].
  - reflexivity.
Defined.

Lemma load_never_returns_witness :
  let e := Sample.env (always_page [Sample.hit_b]) Sample.always_ok in
  @load e 1000 Sample.start = None.
Proof.
  intros e. apply (@load_never_returns e Sample.start).
  intros k. exists [Sample.hit_b]. split; [reflexivity|split; [discriminate|reflexivity]].
Defined.

Lemma load_result_well_formed_witness :
  let e := Sample.env (Sample.pages [[Sample.hit_a1; Sample.hit_a2]; [Sample.hit_b]])
                      Sample.always_ok in
  exists result w',
    @load e 3 Sample.start = Some (Ok result, w') /\
    NoDup (map fst result) /\
    forall k l, (k, l) ∈ result ->
      l <> [] /\ NoDup l /\
      forall r, r ∈ l ->
        (length (heap Sample.start) <= r < length (heap w'))%nat /\
        application (heap w' !!! r) = k.
Proof.
  intros e.
  refine (@load_result_well_formed e 2 3 Sample.start _ _ _).
  - lia.
  - intros k Hk. destruct k as [|[|k]]; [| |lia].
    + exists [Sample.hit_a1; Sample.hit_a2]. split; [reflexivity|split; [discriminate|reflexivity]].
    + exists [Sample.hit_b]. split; [reflexivity|split; [discriminate|reflexivity]].
  - reflexivity.
Defined.

Lemma load_only_searches_witness :
  let e := Sample.env (pages_then_down [[Sample.hit_a1; Sample.hit_a2]]) Sample.always_ok in
  exists r w' evs,
    @load e 3 Sample.start = Some (r, w') /\
    slack_calls w' = slack_calls Sample.start /\
    events w' = events Sample.start ++ evs /\ forallb is_search evs = true.
Proof.
  intros e.
  destruct (@load e 3 Sample.start) as [[r w']|] eqn:Hload;
    [|vm_compute in Hload; discriminate Hload].
  destruct (@load_only_searches e 3 Sample.start r w' Hload) as [Hcalls (evs & Hevs & Hs)].
  exists r, w', evs. split; [reflexivity|]. split; [exact Hcalls|].
  split; [exact Hevs|exact Hs].
Defined.

(** ** The query for the stop words *)

Lemma string_app_assoc (a b c : string) : (a +:+ b) +:+ c = a +:+ (b +:+ c).
Proof.
  induction a as [|x a IH]; [reflexivity|].
  change (String x ((a +:+ b) +:+ c) = String x (a +:+ (b +:+ c))). by rewrite IH.
Qed.

Lemma stop_word_loop_from (words : list string) : forall query,
  stop_word_loop words query = query +:+ stop_word_loop words EmptyString.
Proof.
  unfold stop_word_loop. induction words as [|word words IH]; intros query; simpl.
  - induction query as [|x query IHq]; [reflexivity|].
    change (String x query = String x (query +:+ EmptyString)). by rewrite <- IHq.
  - rewrite IH, (IH (EmptyString +:+ _)). by rewrite string_app_assoc.
Qed.

(** X24: the query is the terms of the stop words one after the other, in
    the order of the words, the term of a word being the word between two
    stars and two spaces: the term of a word stands between the query of the
    words before it and the query of the words after it.  For no word the
    query is empty, and for the words of the script it is
    [" *AuthenticationException*  *SocketException* "]. *)
Theorem stop_word_query_terms (words : list string) :
  stop_word_loop words EmptyString =
    foldr (fun word rest => stop_word_term word +:+ rest) EmptyString words /\
  (forall before word after, words = before ++ word :: after ->
     stop_word_loop words EmptyString =
       stop_word_loop before EmptyString +:+ stop_word_term word +:+
       stop_word_loop after EmptyString) /\
  stop_word_loop [] EmptyString = EmptyString /\
  _get_query_for_stop_word = " *AuthenticationException*  *SocketException* ".
Proof.
  split; [|split; [|by split]].
  - induction words as [|word words IH]; [done|].
    change (stop_word_loop (word :: words) EmptyString)
      with (stop_word_loop words (EmptyString +:+ stop_word_term word)).
    by rewrite stop_word_loop_from, IH.
  - intros before word after ->.
    unfold stop_word_loop at 1. rewrite foldl_app. simpl.
    fold (stop_word_loop before EmptyString).
    fold (stop_word_term word).
    fold (stop_word_loop after (stop_word_loop before EmptyString +:+ stop_word_term word)).
    by rewrite stop_word_loop_from, string_app_assoc.
Qed.

Lemma stop_word_query_terms_witness :
  _get_query_for_stop_word =
    stop_word_loop ["AuthenticationException"] EmptyString +:+
    stop_word_term "SocketException" +:+ stop_word_loop [] EmptyString.
Proof.
  exact (proj1 (proj2 (stop_word_query_terms STOP_WORDS))
               ["AuthenticationException"] "SocketException" [] eq_refl).
Defined.
